(** * Kisaan Saathi: the diagnostic reasoning engine

    A shallow embedding of the two edge functions that make up the
    diagnostic core of the repository:

    - [chat-orchestrator]: [detectSymptoms], [extractKeywords],
      [calculateDiseaseProbabilities], [getNextQuestion] and the request
      handler that folds a turn into the conversation row;
    - [generate-advisory]: the request handler that composes an advisory
      from a conversation's [current_probabilities].

    JavaScript values are modelled as the code has them: a [number] is an
    IEEE 754 binary64 value (Rocq's primitive [float], whose operations
    are the machine's), a string is a sequence of UTF-16 code units, an
    object used as a map is an association list in property insertion
    order, and a Supabase request answers with a [{data, error}] pair.

    The reference tables are lists of rows in table order, and a request
    answers with the rows that pass its filters in that order (or fails).
    Left out are the parts of the handlers that no result depends on: the
    CORS and authentication preamble, the [user_queries] log line, the
    characterisation context (fetched and never read) and the rendered
    [recommendation_text] of an advisory. *)

From Stdlib Require Import List String Ascii ZArith NArith Bool Lia Floats.
From Stdlib Require Import Permutation Sorted.
Import ListNotations.

Set Warnings "-inexact-float".
Local Open Scope bool_scope.

(** ** JavaScript values *)

Module JS.

(** A string is the list of its UTF-16 code units. *)
Definition jsstring := list N.

(** A literal of the source that only holds ASCII characters. *)
Definition str (s : string) : jsstring :=
  map N_of_ascii (list_ascii_of_string s).

(** [a === b] on strings. *)
Fixpoint str_eqb (a b : jsstring) : bool :=
  match a, b with
  | [], [] => true
  | x :: a', y :: b' => N.eqb x y && str_eqb a' b'
  | _, _ => false
  end.

(** [s.startsWith(p)] *)
Fixpoint startsWith (s p : jsstring) {struct p} : bool :=
  match p, s with
  | [], _ => true
  | _ :: _, [] => false
  | x :: p', y :: s' => N.eqb x y && startsWith s' p'
  end.

(** [s.includes(sub)]: [sub] occurs in [s] as a substring. *)
Fixpoint includes (s sub : jsstring) : bool :=
  startsWith s sub ||
  match s with
  | [] => false
  | _ :: s' => includes s' sub
  end.

(** [arr.includes(x)] on an array of strings. *)
Definition array_includes (arr : list jsstring) (x : jsstring) : bool :=
  existsb (str_eqb x) arr.

(** [[...new Set(arr)]]: the first occurrence of every string, in order. *)
Fixpoint array_from_set (seen arr : list jsstring) : list jsstring :=
  match arr with
  | [] => []
  | x :: arr' =>
      if array_includes seen x then array_from_set seen arr'
      else x :: array_from_set (x :: seen) arr'
  end.

(** [arr.join(sep)] *)
Fixpoint join (sep : jsstring) (arr : list jsstring) : jsstring :=
  match arr with
  | [] => []
  | [x] => x
  | x :: arr' => x ++ sep ++ join sep arr'
  end.

(** WhiteSpace and LineTerminator code units: what [String.prototype.trim]
    strips and what [\s] matches. *)
Definition isWhiteSpace (c : N) : bool :=
  (N.leb 9 c && N.leb c 13) || N.eqb c 32 || N.eqb c 160 ||
  N.eqb c 5760 || (N.leb 8192 c && N.leb c 8202) ||
  N.eqb c 8232 || N.eqb c 8233 || N.eqb c 8239 || N.eqb c 8287 ||
  N.eqb c 12288 || N.eqb c 65279.

(** [\d] without the unicode flag: the ten ASCII digits. *)
Definition isDigit (c : N) : bool := N.leb 48 c && N.leb c 57.

Fixpoint trimStart (s : jsstring) : jsstring :=
  match s with
  | [] => []
  | c :: s' => if isWhiteSpace c then trimStart s' else s
  end.

Definition trimEnd (s : jsstring) : jsstring := rev (trimStart (rev s)).

(** [s.trim()] *)
Definition trim (s : jsstring) : jsstring := trimEnd (trimStart s).

(** [s.split(/[c]+/)] for a class [c] of code units: the pieces between
    the maximal runs of separators. [cur] is the piece being read,
    backwards; [skipping] says that the last unit read was a separator. *)
Fixpoint split_class (sep : N -> bool) (s cur : jsstring) (skipping : bool)
  : list jsstring :=
  match s with
  | [] => [rev cur]
  | c :: s' =>
      if sep c then
        if skipping then split_class sep s' cur true
        else rev cur :: split_class sep s' [] true
      else split_class sep s' (c :: cur) false
  end.

(** The length of the match of [/\d+\./] that starts at the head of [s],
    if there is one: a maximal run of digits, one at least, and a dot
    (a shorter run of digits is followed by a digit, never by the dot). *)
Fixpoint digits_dot (s : jsstring) (ndigits : nat) : option nat :=
  match s with
  | [] => None
  | c :: s' =>
      if isDigit c then digits_dot s' (S ndigits)
      else if N.eqb c 46 then
        match ndigits with O => None | S _ => Some (S ndigits) end
      else None
  end.

(** [s.split(/\d+\./)]: at every position outside a match the matcher is
    tried; a match ends the current piece and is skipped. [skip] counts the
    units of the current match still to be skipped. *)
Fixpoint split_digits_dot (s cur : jsstring) (skip : nat) : list jsstring :=
  match s with
  | [] => [rev cur]
  | c :: s' =>
      match skip with
      | S k => split_digits_dot s' cur k
      | O =>
          match digits_dot s 0 with
          | Some n => rev cur :: split_digits_dot s' [] (Nat.pred n)
          | None => split_digits_dot s' (c :: cur) 0
          end
      end
  end.

(** *** Numbers *)

(** [!x] for a number: zero (of either sign) and NaN are falsy. *)
Definition falsy (x : float) : bool := is_zero x || is_nan x.

(** [Math.min(a, b)]: NaN if either argument is, and [-0] below [+0]. *)
Definition Math_min (a b : float) : float :=
  if is_nan a || is_nan b then nan
  else if (a <? b)%float then a
  else if (b <? a)%float then b
  else if get_sign a then a else b.

Definition Math_max2 (a b : float) : float :=
  if is_nan a || is_nan b then nan
  else if (a <? b)%float then b
  else if (b <? a)%float then a
  else if get_sign a then b else a.

(** [Math.max(...values)]: [-Infinity] on no argument. *)
Definition Math_max (values : list float) : float :=
  fold_left Math_max2 values neg_infinity.

(** *** Objects used as maps

    [Record<string, number>]: the properties in insertion order (the keys
    of the program are UUIDs, never array indices, so insertion order is
    the enumeration order of [Object.keys], [Object.entries] and
    [for .. in]). *)
Definition object (V : Type) := list (jsstring * V).

(** [o[k]], [None] standing for [undefined]. *)
Fixpoint get {V} (o : object V) (k : jsstring) : option V :=
  match o with
  | [] => None
  | (k', v) :: o' => if str_eqb k' k then Some v else get o' k
  end.

(** [o[k] = v]: overwrites in place, or adds the property last. *)
Fixpoint set {V} (o : object V) (k : jsstring) (v : V) : object V :=
  match o with
  | [] => [(k, v)]
  | (k', v') :: o' =>
      if str_eqb k' k then (k', v) :: o' else (k', v') :: set o' k v
  end.

Definition keys {V} (o : object V) : list jsstring := map fst o.
Definition values {V} (o : object V) : list V := map snd o.
Definition entries {V} (o : object V) : list (jsstring * V) := o.

(** *** [Array.prototype.sort(comparefn)]

    The sort is stable, and a comparator result that is NaN counts as
    [+0]. For a consistent comparator the result is the one stable
    ordering, which insertion produces: an element moves behind the ones
    the comparator puts strictly before it. *)
Section Sort.
Context {A : Type} (comparefn : A -> A -> float).

Fixpoint sort_insert (x : A) (l : list A) : list A :=
  match l with
  | [] => [x]
  | y :: l' =>
      if (0 <? comparefn x y)%float then y :: sort_insert x l'
      else x :: l
  end.

Definition sort (l : list A) : list A := fold_right sort_insert [] l.
End Sort.

End JS.

Import JS.

(** ** binary64 values, as [SpecFloat] describes them *)

Module F64.

(** Zero or above: [+0 <= x], which NaN fails. *)
Definition SFnonneg (x : spec_float) : bool :=
  match x with
  | S754_zero _ => true
  | S754_infinity s | S754_finite s _ _ => negb s
  | S754_nan => false
  end.

(** Zero or finite: the values JSON can carry. *)
Definition SFfinite (x : spec_float) : bool :=
  match x with
  | S754_zero _ | S754_finite _ _ _ => true
  | _ => false
  end.

(** A value of sign [s], NaN apart. *)
Definition SFsigned (s : bool) (x : spec_float) : Prop :=
  match x with
  | S754_zero s' | S754_infinity s' | S754_finite s' _ _ => s' = s
  | S754_nan => False
  end.

(** A value of sign [s] that is neither zero nor NaN. *)
Definition SFstrict (s : bool) (x : spec_float) : Prop :=
  match x with
  | S754_infinity s' | S754_finite s' _ _ => s' = s
  | _ => False
  end.

End F64.

(** ** The knowledge base *)

(** What a failed request answers with. *)
Record PostgrestError := { message : jsstring }.

(** The [{ data, error }] pair every Supabase request resolves to. *)
Record QueryResult (A : Type) := {
  data : option A;
  error : option PostgrestError
}.
Arguments data {A} _.
Arguments error {A} _.

(** Rows of the reference tables, with the columns the engine reads. *)
Record Symptom := {
  symptom_id : jsstring;
  symptom_code : jsstring;
  description_en : jsstring;
  description_hi : jsstring
}.

Record Disease := {
  disease_id : jsstring;
  name_en : jsstring;
  name_hi : jsstring;
  disease_description_en : jsstring;
  disease_description_hi : jsstring;
  treatment_en : jsstring;
  treatment_hi : jsstring;
  prevention_en : option jsstring;
  prevention_hi : option jsstring;
  disease_crop_id : option jsstring
}.

Record SymptomDiseaseMapping := {
  mapping_symptom_id : jsstring;
  mapping_disease_id : jsstring;
  probability_weight : float;
  is_primary_indicator : bool
}.

Inductive AnswerType := multiple_choice | yes_no | free_text.

(** [trigger_symptoms] is a jsonb column: [None] is a JSON [null].
    [priority] is the integer the table is ordered by. *)
Record DiagnosticQuestion := {
  question_code : jsstring;
  question_en : jsstring;
  question_hi : jsstring;
  trigger_symptoms : option (list jsstring);
  answer_type : AnswerType;
  options : list jsstring;
  priority : Z
}.

(** A table either answers with its rows or fails the request. *)
Inductive Table (Row : Type) :=
| Rows (rows : list Row)
| Unavailable (e : PostgrestError).
Arguments Rows {Row} _.
Arguments Unavailable {Row} _.

(** [supabase.from(t).select(..)] followed by [eq] and [in] filters: the
    rows that pass, in table order. *)
Definition select {Row} (t : Table Row) (keep : Row -> bool)
  : QueryResult (list Row) :=
  match t with
  | Rows rows => {| data := Some (filter keep rows); error := None |}
  | Unavailable e => {| data := None; error := Some e |}
  end.

(** [.single()]: the one row that passes, an error otherwise. *)
Definition single {Row} (t : Table Row) (keep : Row -> bool)
  : QueryResult Row :=
  match t with
  | Rows rows =>
      match filter keep rows with
      | [r] => {| data := Some r; error := None |}
      | _ => {| data := None;
                error := Some {| message := str "JSON object requested, multiple (or no) rows returned" |} |}
      end
  | Unavailable e => {| data := None; error := Some e |}
  end.

(** [.order('priority', { ascending: false })]: rows of equal priority
    keep their table order. *)
Fixpoint insert_by_priority (q : DiagnosticQuestion)
  (l : list DiagnosticQuestion) : list DiagnosticQuestion :=
  match l with
  | [] => [q]
  | q' :: l' =>
      if (priority q <? priority q')%Z then q' :: insert_by_priority q l'
      else q :: l
  end.

Definition order_by_priority_desc (rows : list DiagnosticQuestion)
  : list DiagnosticQuestion :=
  fold_right insert_by_priority [] rows.

Definition select_by_priority (t : Table DiagnosticQuestion)
  : QueryResult (list DiagnosticQuestion) :=
  match t with
  | Rows rows => {| data := Some (order_by_priority_desc rows); error := None |}
  | Unavailable e => {| data := None; error := Some e |}
  end.

(** The client the edge functions read the reference tables through. *)
Record KnowledgeBase := {
  symptoms : Table Symptom;
  diseases : Table Disease;
  symptom_disease_mapping : Table SymptomDiseaseMapping;
  diagnostic_questions : Table DiagnosticQuestion
}.

(** ** The conversation row *)

Inductive Role := user | assistant.

Record ChatMessage := {
  role : Role;
  content : jsstring;
  timestamp : jsstring
}.

Inductive Status := active | completed | escalated.

(** [current_probabilities] is the one nullable jsonb column. *)
Record Conversation := {
  conversation_id : jsstring;
  session_id : jsstring;
  conv_language : jsstring;
  crop_id : option jsstring;
  conversation_history : list ChatMessage;
  detected_symptoms : list jsstring;
  current_probabilities : option (object float);
  status : Status
}.

(** [language === 'hi' ? hi : en] *)
Definition localized {A} (language : jsstring) (hi en : A) : A :=
  if str_eqb language (str "hi") then hi else en.

(** ** chat-orchestrator *)

(** [description.split(/[\s,]+/).filter(w => w.length > 3)] *)
Definition extractKeywords (description : jsstring) : list jsstring :=
  let words :=
    split_class (fun c => isWhiteSpace c || N.eqb c 44) description [] false in
  filter (fun w => Nat.ltb 3 (List.length w)) words.

(** [if (cropId)]: a crop id that is present and not the empty string. *)
Definition truthy (cropId : option jsstring) : bool :=
  match cropId with
  | Some (_ :: _) => true
  | _ => false
  end.

(** [.eq('crop_id', cropId)] on the diseases. *)
Definition of_crop (cropId : option jsstring) (d : Disease) : bool :=
  match disease_crop_id d, cropId with
  | Some c, Some c' => str_eqb c c'
  | _, _ => false
  end.

Section Orchestrator.

(** [String.prototype.toLowerCase], whose Unicode case table is the
    engine's. *)
Variable toLowerCase : jsstring -> jsstring.

(** The query [detectSymptoms] ends up running: every symptom, or, when a
    crop is given, has diseases and these have mapping rows, the symptoms
    of these rows. *)
Definition candidate_symptoms (supabase : KnowledgeBase)
  (cropId : option jsstring) : QueryResult (list Symptom) :=
  let query := select (symptoms supabase) (fun _ => true) in
  if truthy cropId then
    match data (select (diseases supabase) (of_crop cropId)) with
    | Some (d :: ds) =>
        let diseaseIds := map disease_id (d :: ds) in
        match data (select (symptom_disease_mapping supabase)
                      (fun m => array_includes diseaseIds (mapping_disease_id m))) with
        | Some (r :: rs) =>
            let symptomIds := array_from_set [] (map mapping_symptom_id (r :: rs)) in
            select (symptoms supabase)
              (fun s => array_includes symptomIds (symptom_id s))
        | _ => query
        end
    | _ => query
    end
  else query.

Definition detectSymptoms (supabase : KnowledgeBase) (message language : jsstring)
  (cropId : option jsstring) : list Symptom :=
  let messageLower := toLowerCase message in
  let symptoms :=
    match data (candidate_symptoms supabase cropId) with
    | Some symptoms => symptoms
    | None => []
    end in
  filter
    (fun symptom =>
       let description :=
         localized language (description_hi symptom) (description_en symptom) in
       existsb (fun keyword => includes messageLower (toLowerCase keyword))
         (extractKeywords description))
    symptoms.

End Orchestrator.

(** The body of the loop over the mapping rows:
    [if (!p[d]) p[d] = 0; p[d] += weight * 0.5]. *)
Definition accumulate (diseaseProbabilities : object float)
  (mapping : SymptomDiseaseMapping) : object float :=
  let diseaseId := mapping_disease_id mapping in
  let weight := probability_weight mapping in
  let current :=
    match get diseaseProbabilities diseaseId with
    | Some v => if falsy v then 0%float else v
    | None => 0%float
    end in
  set diseaseProbabilities diseaseId (current + weight * 0.5)%float.

(** [for (const d in p) p[d] = Math.min(p[d], 1.0)] *)
Definition clamp (diseaseProbabilities : object float) : object float :=
  map (fun '(d, v) => (d, Math_min v 1.0%float)) diseaseProbabilities.

(** The two loops, over the rows the mapping query answered with. *)
Definition score_mappings (mappings : list SymptomDiseaseMapping)
  : object float :=
  clamp (fold_left accumulate mappings []).

Definition calculateDiseaseProbabilities (supabase : KnowledgeBase)
  (detectedSymptoms : list jsstring) : object float :=
  if Nat.eqb (List.length detectedSymptoms) 0 then []
  else
    let q1 := select (symptoms supabase)
                (fun s => array_includes detectedSymptoms (symptom_code s)) in
    match error q1 with
    | Some symptomsError => []
    | None =>
        match data q1 with
        | None => []
        | Some [] => []
        | Some symptoms =>
            let symptomIds := map symptom_id symptoms in
            let q2 := select (symptom_disease_mapping supabase)
                        (fun m => array_includes symptomIds (mapping_symptom_id m)) in
            match error q2 with
            | Some mappingsError => []
            | None =>
                score_mappings
                  (match data q2 with Some mappings => mappings | None => [] end)
            end
        end
    end.

(** What [getNextQuestion] returns for the question it picks. *)
Record NextQuestion := {
  question : jsstring;
  code : jsstring;
  answerType : AnswerType;
  question_options : list jsstring
}.

(** [conversationHistory.filter(m => m.role === 'assistant').map(m => m.content)] *)
Definition askedQuestions (conversationHistory : list ChatMessage)
  : list jsstring :=
  map content
    (filter (fun m => match role m with assistant => true | user => false end)
       conversationHistory).

(** [q.trigger_symptoms || []] *)
Definition triggerSymptoms (q : DiagnosticQuestion) : list jsstring :=
  match trigger_symptoms q with
  | Some ts => ts
  | None => []
  end.

Definition hasMatchingSymptom (detectedSymptoms : list jsstring)
  (q : DiagnosticQuestion) : bool :=
  existsb (fun ts => array_includes detectedSymptoms ts) (triggerSymptoms q).

Definition questionText (language : jsstring) (q : DiagnosticQuestion)
  : jsstring :=
  localized language (question_hi q) (question_en q).

Definition alreadyAsked (asked : list jsstring) (language : jsstring)
  (q : DiagnosticQuestion) : bool :=
  existsb (fun a => includes a (questionText language q)) asked.

(** The object the loop returns for the question [q]. *)
Definition asked_as (language : jsstring) (q : DiagnosticQuestion)
  : NextQuestion :=
  {| question := questionText language q;
     code := question_code q;
     answerType := answer_type q;
     question_options := options q |}.

(** The questions the loop of [getNextQuestion] runs over:
    [questions || []]. *)
Definition ordered_questions (supabase : KnowledgeBase)
  : list DiagnosticQuestion :=
  match data (select_by_priority (diagnostic_questions supabase)) with
  | Some questions => questions
  | None => []
  end.

Definition getNextQuestion (supabase : KnowledgeBase)
  (detectedSymptoms : list jsstring) (conversationHistory : list ChatMessage)
  (language : jsstring) : option NextQuestion :=
  let asked := askedQuestions conversationHistory in
  match
    find (fun q => hasMatchingSymptom detectedSymptoms q
                   && negb (alreadyAsked asked language q))
      (ordered_questions supabase)
  with
  | Some q => Some (asked_as language q)
  | None => None
  end.

(** The request body and the JSON the handler answers with. *)
Record ConversationRequest := {
  sessionId : jsstring;
  req_message : jsstring;
  req_language : jsstring;
  cropId : option jsstring
}.

Record ChatResponse := {
  response : jsstring;
  detectedSymptoms : list jsstring;
  probabilities : object float;
  nextQuestion : option NextQuestion;
  conversationId : jsstring
}.

(** The loop that folds the matches of a turn into the evidence:
    [if (!detectedSymptoms.includes(code)) detectedSymptoms.push(code)]. *)
Definition push_symptom (detectedSymptoms : list jsstring) (c : jsstring)
  : list jsstring :=
  if array_includes detectedSymptoms c then detectedSymptoms
  else detectedSymptoms ++ [c].

Definition merge_symptoms (detectedSymptoms : list jsstring)
  (symptomMatches : list Symptom) : list jsstring :=
  fold_left push_symptom (map symptom_code symptomMatches) detectedSymptoms.

(** The literals of the reply, in Hindi and in English. *)
Definition nl2 : jsstring := [10; 10]%N.

Definition greeting_hi : jsstring :=
  [2350; 2376; 2306; 32; 2360; 2350; 2333; 32; 2327; 2351; 2366; 2404; 32;
   2310; 2311; 2319; 32; 2311; 2360; 2375; 32; 2332; 2354; 2381; 2342; 2368;
   32; 2360; 2375; 32; 2360; 2350; 2333; 2340; 2375; 32; 2361; 2376; 2306;
   2404]%N.

Definition noticed_hi : jsstring :=
  [2350; 2376; 2306; 2344; 2375; 32; 2342; 2375; 2326; 2366; 58; 32]%N.

Definition identified_hi : jsstring :=
  [10; 10; 2350; 2369; 2333; 2375; 32; 2354; 2327; 2340; 2366; 32; 2361;
   2376; 32; 2325; 2367; 32; 2350; 2369; 2333; 2375; 32; 2346; 2340; 2366;
   32; 2330; 2354; 32; 2327; 2351; 2366; 32; 2361; 2376; 2404; 32; 2310;
   2311; 2319; 32; 2350; 2376; 2306; 32; 2310; 2346; 2325; 2379; 32; 2360;
   2367; 2347; 2366; 2352; 2367; 2358; 32; 2340; 2376; 2351; 2366; 2352; 32;
   2325; 2352; 2370; 2306; 2404]%N.

Definition tell_me_hi : jsstring :=
  [10; 10; 2325; 2371; 2346; 2351; 2366; 32; 2350; 2369; 2333; 2375; 32;
   2348; 2340; 2366; 2319; 2306; 32; 2325; 2367; 32; 2310; 2346; 2325; 2379;
   32; 2325; 2381; 2351; 2366; 32; 2360; 2350; 2360; 2381; 2351; 2366; 32;
   2342; 2367; 2326; 32; 2352; 2361; 2368; 32; 2361; 2376; 63]%N.

(** The entry [Object.entries(p).sort((a, b) => b[1] - a[1])[0]] reads. *)
Definition sortedDiseases (probabilities : object float)
  : list (jsstring * float) :=
  sort (fun a b => (snd b - snd a)%float) (entries probabilities).

Section Handler.

Variable toLowerCase : jsstring -> jsstring.

(** The text of the reply, from what the turn found. *)
Definition responseText (supabase : KnowledgeBase) (language : jsstring)
  (history_length : nat) (symptomMatches : list Symptom)
  (probabilities : object float) (nextQuestion : option NextQuestion)
  : jsstring :=
  let r0 :=
    if Nat.eqb history_length 1 then
      localized language greeting_hi
        (str "I understand. Let's quickly figure this out.")
    else [] in
  let r1 :=
    match symptomMatches with
    | [] => r0
    | _ :: _ =>
        let symptomNames :=
          join (str ", ")
            (map (fun s => localized language (description_hi s) (description_en s))
               symptomMatches) in
        let acknowledgment :=
          localized language noticed_hi (str "I noticed: ") ++ symptomNames in
        match r0 with
        | [] => acknowledgment
        | _ :: _ => r0 ++ nl2 ++ acknowledgment
        end
    end in
  match nextQuestion with
  | Some q => r1 ++ nl2 ++ question q
  | None =>
      match sortedDiseases probabilities with
      | (diseaseId, confidence) :: _ =>
          match data (single (diseases supabase)
                        (fun d => str_eqb (disease_id d) diseaseId)) with
          | Some diseaseData =>
              if (0.6 <? confidence)%float then
                r1 ++ localized language identified_hi
                        (nl2 ++ str "I think I've identified it. Let me prepare a recommendation for you.")
              else r1
          | None => r1
          end
      | [] =>
          if Nat.eqb history_length 1 then
            r1 ++ localized language tell_me_hi
                    (nl2 ++ str "Please tell me what problem you are seeing?")
          else r1
      end
  end.

(** The handler of [chat-orchestrator], from the request body on: the row
    of the session ([existing], or the row inserted for a new session,
    whose id is [fresh_id]), the reply, and the row as the handler writes
    it back. [now] is the clock's [toISOString()]. *)
Definition chat_orchestrator (supabase : KnowledgeBase)
  (existing : option Conversation) (fresh_id now : jsstring)
  (body : ConversationRequest) : ChatResponse * Conversation :=
  let message := req_message body in
  let language := req_language body in
  let conversation :=
    match existing with
    | Some c => c
    | None =>
        {| conversation_id := fresh_id;
           session_id := sessionId body;
           conv_language := match language with [] => str "en" | _ => language end;
           crop_id := cropId body;
           conversation_history := [];
           detected_symptoms := [];
           current_probabilities := Some [];
           status := active |}
    end in
  let userMessage :=
    {| role := user; content := message; timestamp := now |} in
  let conversationHistory := conversation_history conversation ++ [userMessage] in
  let symptomMatches :=
    detectSymptoms toLowerCase supabase message language (cropId body) in
  let detectedSymptoms :=
    merge_symptoms (detected_symptoms conversation) symptomMatches in
  let probabilities :=
    calculateDiseaseProbabilities supabase detectedSymptoms in
  let nextQuestion :=
    if Nat.ltb 0 (List.length detectedSymptoms)
       && Nat.ltb 0 (List.length (keys probabilities)) then
      if (Math_max (values probabilities) <? 0.75)%float then
        getNextQuestion supabase detectedSymptoms conversationHistory language
      else None
    else None in
  let text :=
    responseText supabase language (List.length conversationHistory)
      symptomMatches probabilities nextQuestion in
  let assistantMessage :=
    {| role := assistant; content := text; timestamp := now |} in
  ({| response := text;
      detectedSymptoms := detectedSymptoms;
      probabilities := probabilities;
      nextQuestion := nextQuestion;
      conversationId := conversation_id conversation |},
   {| conversation_id := conversation_id conversation;
      session_id := session_id conversation;
      conv_language := conv_language conversation;
      crop_id := crop_id conversation;
      conversation_history := conversationHistory ++ [assistantMessage];
      detected_symptoms := detectedSymptoms;
      current_probabilities := Some probabilities;
      status := status conversation |}).

End Handler.

(** A session: every request is handled on the row the one before it
    saved, the first on [existing]. A request comes with the id a new row
    would get and with the time of the clock. *)
Fixpoint session (toLowerCase : jsstring -> jsstring)
  (supabase : KnowledgeBase) (existing : option Conversation)
  (requests : list (jsstring * jsstring * ConversationRequest))
  : option Conversation :=
  match requests with
  | [] => existing
  | (fresh_id, now, body) :: requests' =>
      session toLowerCase supabase
        (Some (snd (chat_orchestrator toLowerCase supabase existing
                      fresh_id now body)))
        requests'
  end.

(** A session whose turns find the reference tables as they are at the
    time: every request comes with the knowledge base as its reads
    answer. *)
Fixpoint turns (toLowerCase : jsstring -> jsstring)
  (existing : option Conversation)
  (requests : list (KnowledgeBase * jsstring * jsstring * ConversationRequest))
  : option Conversation :=
  match requests with
  | [] => existing
  | (supabase, fresh_id, now, body) :: requests' =>
      turns toLowerCase
        (Some (snd (chat_orchestrator toLowerCase supabase existing
                      fresh_id now body)))
        requests'
  end.

(** ** generate-advisory *)

Record ActionStep := { step : nat; action : jsstring }.

(** [treatment.split(/\d+\./).filter(s => s.trim().length > 0)] *)
Definition treatmentSteps (treatment : jsstring) : list jsstring :=
  filter (fun s => Nat.ltb 0 (List.length (trim s)))
    (split_digits_dot treatment [] 0).

(** [steps.map((step, index) => ({ step: index + 1, action: step.trim() }))],
    [index] being the index of the head of [steps]. *)
Fixpoint number_steps (index : nat) (steps : list jsstring) : list ActionStep :=
  match steps with
  | [] => []
  | s :: steps' =>
      {| step := index + 1; action := trim s |} :: number_steps (S index) steps'
  end.

Definition actionSteps (treatment : jsstring) : list ActionStep :=
  number_steps 0 (treatmentSteps treatment).

(** The three bands of [confidenceLevelText]. *)
Inductive ConfidenceLevel := High | Moderate | Low.

Definition confidenceLevel (confidenceScore : float) : ConfidenceLevel :=
  if (0.8 <=? confidenceScore)%float then High
  else if (0.6 <=? confidenceScore)%float then Moderate
  else Low.

Definition confidenceLevelText (language : jsstring) (l : ConfidenceLevel)
  : jsstring :=
  match l with
  | High => localized language [2313; 2330; 2381; 2330]%N (str "High")
  | Moderate => localized language [2350; 2343; 2381; 2351; 2350]%N (str "Moderate")
  | Low => localized language [2325; 2350]%N (str "Low")
  end.

(** [const shouldEscalate = confidenceScore < 0.6] *)
Definition shouldEscalate (confidenceScore : float) : bool :=
  (confidenceScore <? 0.6)%float.

(** The row inserted into [advisories] (its [recommendation_text], a
    rendering of the other fields, is left out) and the advisory of the
    reply. *)
Record Advisory := {
  advisory_conversation_id : jsstring;
  advisory_user_id : jsstring;
  advisory_disease_id : jsstring;
  confidence_score : float;
  advisory_language : jsstring;
  action_steps : list ActionStep;
  advisory_escalated : bool
}.

Record AdvisoryReply := {
  diseaseName : jsstring;
  description : jsstring;
  treatment : jsstring;
  prevention : option jsstring;
  confidenceScore : float;
  reply_confidenceLevel : jsstring;
  reply_actionSteps : list ActionStep;
  reply_escalated : bool
}.

(** What the handler answers with: the HTTP status and the body. *)
Inductive Outcome :=
| Unauthorized
| NoDiagnosis (error_message : jsstring)
| ServerError (error_message : jsstring)
| Composed (row : Advisory) (reply : AdvisoryReply).

(** The handler of [generate-advisory] once the conversation row is read:
    the outcome and the row as the handler leaves it. The 400 answer is
    the spec's [NoEvidenceError]; a thrown [Error] is the 500 answer of
    the [catch]. *)
Definition compose (supabase : KnowledgeBase) (user_id : jsstring)
  (conversation : Conversation) (language : jsstring)
  : Outcome * Conversation :=
  let probabilities :=
    match current_probabilities conversation with
    | Some p => p
    | None => []
    end in
  if Nat.eqb (List.length (keys probabilities)) 0 then
    (NoDiagnosis
       (str "No diagnosis available yet. Please provide more information about symptoms."),
     conversation)
  else
    match sortedDiseases probabilities with
    | [] => (ServerError (str "undefined is not iterable"), conversation)
    | (topDiseaseId, confidence) :: _ =>
        match data (single (diseases supabase)
                      (fun d => str_eqb (disease_id d) topDiseaseId)) with
        | None =>
            (ServerError (str "Disease information not found"), conversation)
        | Some disease =>
            let confidenceScore := confidence in
            let escalate := shouldEscalate confidenceScore in
            let treatment :=
              localized language (treatment_hi disease) (treatment_en disease) in
            let steps := actionSteps treatment in
            (Composed
               {| advisory_conversation_id := conversation_id conversation;
                  advisory_user_id := user_id;
                  advisory_disease_id := topDiseaseId;
                  confidence_score := confidenceScore;
                  advisory_language := language;
                  action_steps := steps;
                  advisory_escalated := escalate |}
               {| diseaseName := localized language (name_hi disease) (name_en disease);
                  description :=
                    localized language (disease_description_hi disease)
                      (disease_description_en disease);
                  treatment := treatment;
                  prevention :=
                    localized language (prevention_hi disease) (prevention_en disease);
                  confidenceScore := confidenceScore;
                  reply_confidenceLevel :=
                    confidenceLevelText language (confidenceLevel confidenceScore);
                  reply_actionSteps := steps;
                  reply_escalated := escalate |},
             {| conversation_id := conversation_id conversation;
                session_id := session_id conversation;
                conv_language := conv_language conversation;
                crop_id := crop_id conversation;
                conversation_history := conversation_history conversation;
                detected_symptoms := detected_symptoms conversation;
                current_probabilities := current_probabilities conversation;
                status := if escalate then escalated else completed |})
        end
    end.

(** The whole handler: [user] is what [auth.getUser] answered with and
    [found] the row of [conversationId], when there is one. *)
Definition generate_advisory (supabase : KnowledgeBase)
  (user_id : option jsstring) (found : option Conversation)
  (language : jsstring) : Outcome * option Conversation :=
  match user_id with
  | None => (Unauthorized, found)
  | Some uid =>
      match found with
      | None => (ServerError (str "Conversation not found"), None)
      | Some conversation =>
          let (outcome, conversation') := compose supabase uid conversation language in
          (outcome, Some conversation')
      end
  end.

(** *** What [generate-advisory] writes

    The writes of the handler that [compose] leaves out. With an advisory
    composed, the handler inserts it into [advisories] and reads the new
    row back for its [id] (the reply carries [advisory?.id]: a failure of
    the insert is not looked at), and then sets [status] and [updated_at]
    of the conversation. [inserted] is the id the database gave the new
    row, [None] when the insert failed; [now] is the clock's
    [toISOString()]. The answer comes with the id of the reply. *)
Record Store := {
  stored_conversation : Conversation;
  updated_at : jsstring;
  advisories : list (jsstring * Advisory)
}.

Definition generate_advisory_writes (supabase : KnowledgeBase)
  (user_id language now : jsstring) (inserted : option jsstring)
  (store : Store) : Outcome * option jsstring * Store :=
  match compose supabase user_id (stored_conversation store) language with
  | (Composed row reply, conversation') =>
      (Composed row reply, inserted,
       {| stored_conversation := conversation';
          updated_at := now;
          advisories :=
            match inserted with
            | Some id => advisories store ++ [(id, row)]
            | None => advisories store
            end |})
  | (outcome, _) => (outcome, None, store)
  end.

(** ** What the properties speak of *)

(** The scores a conversation row can hold: jsonb numbers, which are
    finite. *)
Definition finite_scores (probabilities : object float) : Prop :=
  forall d s, In (d, s) probabilities -> is_finite s = true.

(** [current_probabilities || {}] *)
Definition probabilities_of (conversation : Conversation) : object float :=
  match current_probabilities conversation with
  | Some p => p
  | None => []
  end.

(** The evidence a turn starts from: the row's [detected_symptoms], or
    none for a session that has no row yet. *)
Definition evidence_before (existing : option Conversation) : list jsstring :=
  match existing with
  | Some conversation => detected_symptoms conversation
  | None => []
  end.

(** Every weight of the mapping table lies in [[0, 1]], as the CHECK
    constraint of the [probability_weight] column has it. *)
Definition weights_in_unit_interval (supabase : KnowledgeBase) : Prop :=
  match symptom_disease_mapping supabase with
  | Rows rows =>
      forall m, In m rows ->
        (0 <=? probability_weight m)%float = true /\
        (probability_weight m <=? 1)%float = true
  | Unavailable _ => True
  end.

(** No score is negative before the clamp. *)
Definition nonneg_scores (o : object float) : Prop :=
  forall d v, In (d, v) o -> (0 <=? v)%float = true.




(** [sub] occurs in [s]. *)
Definition Substring (sub s : jsstring) : Prop :=
  exists pre post, s = pre ++ sub ++ post.







(** A question qualifies, in the words of the specification: one of its
    trigger symptoms is among the detected ones, and its localized text
    occurs in no assistant message of the history. *)
Definition qualifies (detectedSymptoms : list jsstring)
  (conversationHistory : list ChatMessage) (language : jsstring)
  (q : DiagnosticQuestion) : Prop :=
  (exists ts, In ts (triggerSymptoms q) /\ In ts detectedSymptoms) /\
  (forall m, In m conversationHistory -> role m = assistant ->
             ~ Substring (questionText language q) (content m)).

(** Priorities never increase along the list. *)
Definition descending_priority (l : list DiagnosticQuestion) : Prop :=
  StronglySorted (fun q q' => (priority q' <= priority q)%Z) l.

(** The diseases of a crop, and the mapping rows of these diseases, as the
    two requests of [detectSymptoms] find them (nothing, when a request
    fails). *)
Definition crop_diseases (supabase : KnowledgeBase) (crop : jsstring)
  : list Disease :=
  match diseases supabase with
  | Rows rows => filter (of_crop (Some crop)) rows
  | Unavailable _ => []
  end.

Definition crop_mappings (supabase : KnowledgeBase) (crop : jsstring)
  : list SymptomDiseaseMapping :=
  match symptom_disease_mapping supabase with
  | Rows rows =>
      filter
        (fun m => array_includes (map disease_id (crop_diseases supabase crop))
                    (mapping_disease_id m))
        rows
  | Unavailable _ => []
  end.

(** The weights of the rows of the disease [d], in row order, and the
    sum the first loop of [calculateDiseaseProbabilities] builds from
    them: [step acc w] is one pass of its body for a row of [d]. *)
Definition weights_of (d : jsstring) (rows : list SymptomDiseaseMapping)
  : list float :=
  map probability_weight
    (filter (fun m => str_eqb (mapping_disease_id m) d) rows).

Definition step_score (acc : option float) (weight : float) : option float :=
  let current :=
    match acc with
    | Some v => if falsy v then 0%float else v
    | None => 0%float
    end in
  Some (current + weight * 0.5)%float.

Definition disease_score (d : jsstring) (rows : list SymptomDiseaseMapping)
  : option float :=
  option_map (fun v => Math_min v 1.0%float)
    (fold_left step_score (weights_of d rows) None).

(** The row of the disease that heads the sorted scores, as the handler
    reads it: [None] when the request fails or no single row has the id. *)
Definition top_disease (supabase : KnowledgeBase)
  (probabilities : object float) : option Disease :=
  match sortedDiseases probabilities with
  | (topDiseaseId, _) :: _ =>
      data (single (diseases supabase)
              (fun d => str_eqb (disease_id d) topDiseaseId))
  | [] => None
  end.

(** ** The scenarios of the specification

    A knowledge base with the rows of scenarios A, B and D: two primary
    indicators of wheat rust, weighted 0.9 and 0.8, and one weak symptom of
    leaf blight, weighted 0.3. *)

Definition orange_pustules : Symptom :=
  {| symptom_id := str "sym-1";
     symptom_code := str "orange_pustules";
     description_en := str "Orange pustules on leaves";
     description_hi := str "narangi phunsi" |}.

Definition rust_spots : Symptom :=
  {| symptom_id := str "sym-2";
     symptom_code := str "rust_spots";
     description_en := str "Rust coloured spots";
     description_hi := str "jang jaise dhabbe" |}.

Definition leaf_curl : Symptom :=
  {| symptom_id := str "sym-3";
     symptom_code := str "leaf_curl";
     description_en := str "Leaves curling upward";
     description_hi := str "patte mudna" |}.

Definition wheat_rust : Disease :=
  {| disease_id := str "dis-wheat-rust";
     name_en := str "Wheat Rust";
     name_hi := str "Gehun ka ratua";
     disease_description_en := str "A fungal disease of wheat";
     disease_description_hi := str "Gehun ka phaphund rog";
     treatment_en :=
       str "1. Apply fungicide 2. Remove infected leaves 3. Monitor weekly";
     treatment_hi := str "1. Phaphundnashak 2. Patte hatayen";
     prevention_en := Some (str "Use resistant varieties");
     prevention_hi := None;
     disease_crop_id := Some (str "crop-wheat") |}.

Definition leaf_blight : Disease :=
  {| disease_id := str "dis-leaf-blight";
     name_en := str "Leaf Blight";
     name_hi := str "Patti jhulsa";
     disease_description_en := str "A blight of the leaves";
     disease_description_hi := str "Patti ka jhulsa";
     treatment_en := str "1. Spray copper oxychloride";
     treatment_hi := str "1. Copper oxychloride";
     prevention_en := None;
     prevention_hi := None;
     disease_crop_id := Some (str "crop-cotton") |}.

Definition mapping (s : Symptom) (d : Disease) (w : float) (primary : bool)
  : SymptomDiseaseMapping :=
  {| mapping_symptom_id := symptom_id s;
     mapping_disease_id := disease_id d;
     probability_weight := w;
     is_primary_indicator := primary |}.

Definition question_sticky : DiagnosticQuestion :=
  {| question_code := str "q-sticky";
     question_en := str "Do the leaves feel sticky?";
     question_hi := str "Kya patte chipchipe hain?";
     trigger_symptoms := Some [str "leaf_curl"];
     answer_type := yes_no;
     options := [];
     priority := 5 |}.

Definition question_weather : DiagnosticQuestion :=
  {| question_code := str "q-weather";
     question_en := str "Has it rained recently?";
     question_hi := str "Kya haal mein barish hui?";
     trigger_symptoms := None;
     answer_type := yes_no;
     options := [];
     priority := 20 |}.

Definition question_spread : DiagnosticQuestion :=
  {| question_code := str "q-spread";
     question_en := str "Are the spots spreading to the stem?";
     question_hi := str "Kya dhabbe tane tak phail rahe hain?";
     trigger_symptoms := Some [str "rust_spots"; str "orange_pustules"];
     answer_type := yes_no;
     options := [];
     priority := 10 |}.

Definition scenario_kb : KnowledgeBase :=
  {| symptoms := Rows [orange_pustules; rust_spots; leaf_curl];
     diseases := Rows [wheat_rust; leaf_blight];
     symptom_disease_mapping :=
       Rows [mapping orange_pustules wheat_rust 0.9 true;
             mapping rust_spots wheat_rust 0.8 true;
             mapping leaf_curl leaf_blight 0.3 false];
     diagnostic_questions :=
       Rows [question_sticky; question_weather; question_spread] |}.

(** The scenario with a [symptoms] table that fails its requests. *)
Definition unavailable_kb : KnowledgeBase :=
  {| symptoms := Unavailable {| message := str "connection refused" |};
     diseases := diseases scenario_kb;
     symptom_disease_mapping := symptom_disease_mapping scenario_kb;
     diagnostic_questions := diagnostic_questions scenario_kb |}.

(** The scenario with a [diseases] table that fails its requests. *)
Definition diseases_unavailable_kb : KnowledgeBase :=
  {| symptoms := symptoms scenario_kb;
     diseases := Unavailable {| message := str "connection refused" |};
     symptom_disease_mapping := symptom_disease_mapping scenario_kb;
     diagnostic_questions := diagnostic_questions scenario_kb |}.

(** A turn of the scenario: the farmer describes two of the symptoms. *)
Definition scenario_turn : ConversationRequest :=
  {| sessionId := str "session-1";
     req_message := str "Orange pustules and leaves curling";
     req_language := str "en";
     cropId := None |}.

(** The history of a conversation in which the assistant has asked the
    question of highest priority already. *)
Definition scenario_history : list ChatMessage :=
  [ {| role := user;
       content := str "Orange pustules and leaves curling";
       timestamp := str "2026-02-27T01:06:15.000Z" |};
    {| role := assistant;
       content :=
         str "I noticed: Orange pustules on leaves" ++ nl2
         ++ str "Are the spots spreading to the stem?";
       timestamp := str "2026-02-27T01:06:16.000Z" |};
    {| role := user;
       content := str "Are the spots spreading to the stem? Do the leaves feel sticky?";
       timestamp := str "2026-02-27T01:07:00.000Z" |} ].

(** A conversation row of the scenario, with the evidence and the scores a
    turn left in it. *)
Definition scenario_conversation (evidence : list jsstring)
  (scores : option (object float)) : Conversation :=
  {| conversation_id := str "conv-1";
     session_id := str "session-1";
     conv_language := str "en";
     crop_id := None;
     conversation_history := [];
     detected_symptoms := evidence;
     current_probabilities := scores;
     status := active |}.

(** Three symptoms of one disease, weighted 0.1, 0.2 and 0.3, in a
    knowledge base that answers with the mapping rows in the order
    [rows]. *)
Definition blight_rows : list SymptomDiseaseMapping :=
  [mapping orange_pustules leaf_blight 0.1 false;
   mapping rust_spots leaf_blight 0.2 false;
   mapping leaf_curl leaf_blight 0.3 false].

Definition blight_kb (rows : list SymptomDiseaseMapping) : KnowledgeBase :=
  {| symptoms := Rows [orange_pustules; rust_spots; leaf_curl];
     diseases := Rows [wheat_rust; leaf_blight];
     symptom_disease_mapping := Rows rows;
     diagnostic_questions := Rows [] |}.


(** Lower case on the ASCII letters, for the scenarios. *)
Definition ascii_toLowerCase (s : jsstring) : jsstring :=
  map (fun c => if N.leb 65 c && N.leb c 90 then (c + 32)%N else c) s.

(** The rows a table answers with: none, when the request fails. *)
Definition table_rows {Row} (t : Table Row) : list Row :=
  match t with
  | Rows rows => rows
  | Unavailable _ => []
  end.

(** The history a turn starts from. *)
Definition history_before (existing : option Conversation)
  : list ChatMessage :=
  match existing with
  | Some conversation => conversation_history conversation
  | None => []
  end.

(** What separates the words of a description: [[\s,]]. *)
Definition isSeparator (c : N) : bool := isWhiteSpace c || N.eqb c 44.

(** * Properties *)

(** ** binary64 arithmetic

    What the proofs below need of the operations of [float], derived from
    their specification in [SpecFloat]: sums and products of values that
    are zero or above stay so, the sign of a difference of finite values
    is their order, and [<=] is a total preorder away from NaN. *)

Module F64Facts.
Import F64.
Local Open Scope Z_scope.

Lemma SFcompare_refl x : x <> S754_nan -> SFcompare x x = Some Eq.
Proof.
  destruct x as [s|s| |s m e]; simpl; intros H; try congruence;
    destruct s; try reflexivity;
    rewrite Z.compare_refl, Pos.compare_cont_refl; reflexivity.
Qed.

Lemma SFcompare_antisym x y :
  SFcompare y x = option_map CompOpp (SFcompare x y).
Proof.
  destruct x as [sx|sx| |sx mx ex], y as [sy|sy| |sy my ey]; simpl;
    try reflexivity;
    try (destruct sx; reflexivity); try (destruct sy; reflexivity);
    try (destruct sx, sy; reflexivity).
  destruct sx, sy; simpl; try reflexivity;
    rewrite (Z.compare_antisym ex ey);
    destruct (ex ?= ey); simpl; try reflexivity;
    rewrite (Pos.compare_cont_antisym mx my Eq); simpl;
    destruct (Pos.compare_cont Eq mx my); reflexivity.
Qed.

Lemma leb_zero_spec x : (0 <=? x)%float = SFnonneg (Prim2SF x).
Proof.
  rewrite leb_spec. change (Prim2SF 0) with (S754_zero false).
  destruct (Prim2SF x) as [s|s| |s m e]; try reflexivity; destruct s; reflexivity.
Qed.

Section Shr.
Variable P : shr_record -> Prop.
Variable f : shr_record -> shr_record.
Hypothesis Pf : forall r, P r -> P (f r).

Lemma iter_pos_inv n : forall r, P r -> P (iter_pos f n r).
Proof. induction n; simpl; auto. Qed.
End Shr.

Lemma shr_1_nonneg r : 0 <= shr_m r -> 0 <= shr_m (shr_1 r).
Proof.
  destruct r as [m r s]; simpl.
  destruct m as [|[p|p|]|[p|p|]]; simpl; lia.
Qed.

Lemma shr_nonneg r e n : 0 <= shr_m r -> 0 <= shr_m (fst (shr r e n)).
Proof.
  intros H. destruct n; simpl; auto.
  apply iter_pos_inv with (P := fun r => 0 <= shr_m r); auto using shr_1_nonneg.
Qed.

Lemma shr_record_of_loc_m m l : shr_m (shr_record_of_loc m l) = m.
Proof. destruct l as [|[]]; reflexivity. Qed.

Lemma shr_fexp_nonneg m e l :
  0 <= m -> 0 <= shr_m (fst (shr_fexp prec emax m e l)).
Proof.
  intros H. unfold shr_fexp. apply shr_nonneg.
  now rewrite shr_record_of_loc_m.
Qed.

Lemma round_nearest_even_nonneg m l : 0 <= m -> 0 <= round_nearest_even m l.
Proof.
  intros H. destruct l as [|[]]; simpl; try lia.
  destruct (Z.even m); lia.
Qed.

Lemma binary_round_aux_signed s m e l :
  0 <= m -> SFsigned s (binary_round_aux prec emax s m e l).
Proof.
  intros H. unfold binary_round_aux.
  pose proof (shr_fexp_nonneg m e l H) as H1.
  destruct (shr_fexp prec emax m e l) as [mrs' e'] eqn:E1. simpl in H1.
  pose proof (shr_fexp_nonneg _ e' loc_Exact
                (round_nearest_even_nonneg _ (loc_of_shr_record mrs') H1)) as H2.
  destruct (shr_fexp prec emax (round_nearest_even _ _) e' loc_Exact)
    as [mrs'' e''] eqn:E2. simpl in H2.
  destruct (shr_m mrs'') as [|p|p]; simpl; try reflexivity; try lia.
  match goal with |- context [if ?c then _ else _] => destruct c end; reflexivity.
Qed.

Lemma binary_round_signed s m e : SFsigned s (binary_round prec emax s m e).
Proof.
  unfold binary_round.
  destruct (shl_align m e _) as [mz ez].
  apply binary_round_aux_signed. lia.
Qed.

Lemma SFsigned_nonneg x : SFsigned false x -> SFnonneg x = true.
Proof. destruct x; simpl; intros; subst; auto; contradiction. Qed.

Lemma SFadd_nonneg x y :
  SFnonneg x = true -> SFnonneg y = true -> SFnonneg (SF64add x y) = true.
Proof.
  destruct x as [sx|sx| |sx mx ex], y as [sy|sy| |sy my ey]; simpl;
    try discriminate; auto;
    try (destruct sx; simpl; auto; fail);
    try (destruct sx, sy; simpl; auto; discriminate).
  destruct sx, sy; simpl; try discriminate. intros _ _.
  apply SFsigned_nonneg.
  apply (binary_round_signed false).
Qed.

Lemma SFmul_nonneg_finite x my ey :
  SFnonneg x = true ->
  SFnonneg (SF64mul x (S754_finite false my ey)) = true.
Proof.
  destruct x as [sx|sx| |sx mx ex]; simpl; try discriminate; auto.
  - destruct sx; simpl; auto.
  - destruct sx; simpl; try discriminate. intros _.
    apply SFsigned_nonneg. apply (binary_round_aux_signed false). lia.
Qed.

Lemma add_nonneg (a b : float) :
  (0 <=? a)%float = true -> (0 <=? b)%float = true ->
  (0 <=? a + b)%float = true.
Proof.
  rewrite !leb_zero_spec, add_spec. apply SFadd_nonneg.
Qed.

Lemma mul_half_nonneg (a : float) :
  (0 <=? a)%float = true -> (0 <=? a * 0.5)%float = true.
Proof.
  rewrite !leb_zero_spec, mul_spec.
  change (Prim2SF 0.5) with (S754_finite false 4503599627370496 (-53)).
  apply SFmul_nonneg_finite.
Qed.


(** *** Rounding keeps a non-zero value away from zero *)

Lemma shr_1_div2 r : 0 <= shr_m r -> shr_m (shr_1 r) = Z.div2 (shr_m r).
Proof.
  destruct r as [m r s]; simpl.
  destruct m as [|[p|p|]|[p|p|]]; simpl; intros; try reflexivity; lia.
Qed.

Lemma iter_shr_1_shiftr n : forall r,
  0 <= shr_m r ->
  shr_m (iter_pos shr_1 n r) = Z.shiftr (shr_m r) (Zpos n).
Proof.
  induction n as [n IH|n IH|]; intros r Hr; simpl iter_pos.
  - assert (H1 : 0 <= shr_m (shr_1 r)) by now apply shr_1_nonneg.
    assert (H2 : 0 <= shr_m (iter_pos shr_1 n (shr_1 r))).
    { apply iter_pos_inv with (P := fun r => 0 <= shr_m r); auto using shr_1_nonneg. }
    rewrite IH, IH, shr_1_div2, Z.div2_spec, !Z.shiftr_shiftr by (auto; lia).
    f_equal. lia.
  - assert (H2 : 0 <= shr_m (iter_pos shr_1 n r)).
    { apply iter_pos_inv with (P := fun r => 0 <= shr_m r); auto using shr_1_nonneg. }
    rewrite IH, IH, !Z.shiftr_shiftr by (auto; lia).
    f_equal. lia.
  - rewrite shr_1_div2, Z.div2_spec by auto. reflexivity.
Qed.

Lemma digits2_pos_bounds m :
  2 ^ (Zpos (digits2_pos m) - 1) <= Zpos m < 2 ^ Zpos (digits2_pos m).
Proof.
  induction m as [m IH|m IH|]; simpl digits2_pos.
  - rewrite Pos2Z.inj_succ.
    replace (Z.succ (Zpos (digits2_pos m)) - 1) with (Z.succ (Zpos (digits2_pos m) - 1)) by lia.
    rewrite !Z.pow_succ_r by lia. lia.
  - rewrite Pos2Z.inj_succ.
    replace (Z.succ (Zpos (digits2_pos m)) - 1) with (Z.succ (Zpos (digits2_pos m) - 1)) by lia.
    rewrite !Z.pow_succ_r by lia. lia.
  - simpl. lia.
Qed.

Lemma shr_fexp_pos m e l :
  emin <= e ->
  0 < shr_m (fst (shr_fexp prec emax (Zpos m) e l)) /\
  emin <= snd (shr_fexp prec emax (Zpos m) e l).
Proof.
  intros He. unfold shr_fexp, shr.
  set (d := Zpos (digits2_pos m)).
  change (Zdigits2 (Zpos m)) with d.
  destruct (fexp prec emax (d + e) - e) as [|n|n] eqn:En; simpl fst; simpl snd;
    rewrite ?shr_record_of_loc_m; try (split; [reflexivity | assumption]).
  rewrite iter_shr_1_shiftr by (rewrite shr_record_of_loc_m; lia).
  rewrite shr_record_of_loc_m, Z.shiftr_div_pow2 by lia.
  unfold fexp, SpecFloat.emin, prec, emax in *.
  pose proof (digits2_pos_bounds m) as [Hlo _]. fold d in Hlo.
  assert (Hn : Zpos n <= d - 1) by lia.
  split; [|lia].
  assert (2 ^ Zpos n <= Zpos m).
  { eapply Z.le_trans; [|exact Hlo]. apply Z.pow_le_mono_r; lia. }
  assert (0 < 2 ^ Zpos n) by (apply Z.pow_pos_nonneg; lia).
  apply Z.div_str_pos. lia.
Qed.

Lemma round_nearest_even_pos m l : 0 < m -> 0 < round_nearest_even m l.
Proof.
  intros H. destruct l as [|[]]; simpl; try lia.
  destruct (Z.even m); lia.
Qed.

Lemma binary_round_aux_strict s m e l :
  emin <= e -> SFstrict s (binary_round_aux prec emax s (Zpos m) e l).
Proof.
  intros He. unfold binary_round_aux.
  destruct (shr_fexp_pos m e l He) as [H1 H1e].
  destruct (shr_fexp prec emax (Zpos m) e l) as [mrs' e'] eqn:E1.
  simpl in H1, H1e.
  pose proof (round_nearest_even_pos _ (loc_of_shr_record mrs') H1) as Hr.
  destruct (round_nearest_even (shr_m mrs') (loc_of_shr_record mrs'))
    as [|m'|m'] eqn:Er; try lia.
  destruct (shr_fexp_pos m' e' loc_Exact H1e) as [H2 _].
  destruct (shr_fexp prec emax (Zpos m') e' loc_Exact) as [mrs'' e''] eqn:E2.
  simpl in H2.
  destruct (shr_m mrs'') as [|p|p]; try lia.
  match goal with |- context [if ?c then _ else _] => destruct c end; reflexivity.
Qed.

Lemma iter_xO_pow2 m d : Zpos (Pos.iter xO m d) = Zpos m * 2 ^ Zpos d.
Proof.
  induction d as [|d IH] using Pos.peano_ind.
  - simpl. lia.
  - rewrite Pos.iter_succ, Pos2Z.inj_succ, Z.pow_succ_r, Pos2Z.inj_xO, IH by lia.
    lia.
Qed.

Lemma shl_align_spec m e e' :
  e' <= e ->
  Zpos (fst (shl_align m e e')) = Zpos m * 2 ^ (e - e') /\
  snd (shl_align m e e') = e'.
Proof.
  intros H. unfold shl_align.
  destruct (e' - e) as [|d|d] eqn:E; simpl fst; simpl snd; try lia.
  - replace (e - e') with 0 by lia. split; lia.
  - rewrite iter_xO_pow2. replace (e - e') with (Zpos d) by lia. split; lia.
Qed.

Lemma binary_round_strict s m e :
  emin <= e -> SFstrict s (binary_round prec emax s m e).
Proof.
  intros He. unfold binary_round.
  set (e' := fexp prec emax (Zpos (digits2_pos m) + e)).
  assert (He' : emin <= e') by (unfold e', fexp; lia).
  unfold shl_align.
  destruct (e' - e) as [|d|d] eqn:E; apply binary_round_aux_strict; assumption.
Qed.

Lemma binary_normalize_ltb_zero m e :
  emin <= e ->
  SFltb (S754_zero false) (binary_normalize prec emax m e false) = (0 <? m).
Proof.
  intros He. destruct m as [|p|p]; simpl binary_normalize; try reflexivity.
  - pose proof (binary_round_strict false p e He) as H.
    destruct (binary_round prec emax false p e); simpl in H; try contradiction;
      subst; reflexivity.
  - pose proof (binary_round_strict true p e He) as H.
    destruct (binary_round prec emax true p e); simpl in H; try contradiction;
      subst; reflexivity.
Qed.

(** What validity says of a finite value. *)
Lemma valid_finite s m e :
  valid_binary (S754_finite s m e) = true ->
  emin <= e /\ Zpos (digits2_pos m) <= prec /\
  (emin < e -> Zpos (digits2_pos m) = prec).
Proof.
  simpl. unfold bounded, canonical_mantissa, fexp, SpecFloat.emin, prec, emax.
  intros H. apply andb_prop in H as [H _]. apply Z.eqb_eq in H. lia.
Qed.

Lemma valid_mantissa_bounds s m e :
  valid_binary (S754_finite s m e) = true ->
  Zpos m < 2 ^ prec /\ (emin < e -> 2 ^ (prec - 1) <= Zpos m).
Proof.
  intros H. apply valid_finite in H as (He & Hd & Hn).
  pose proof (digits2_pos_bounds m) as [Hlo Hhi].
  split.
  - eapply Z.lt_le_trans; [exact Hhi|]. apply Z.pow_le_mono_r; lia.
  - intros H. rewrite <- (Hn H). exact Hlo.
Qed.

(** Of two valid values, the one with the larger exponent is the larger. *)
Lemma valid_lt_exp sx mx ex sy my ey :
  valid_binary (S754_finite sx mx ex) = true ->
  valid_binary (S754_finite sy my ey) = true ->
  ex < ey ->
  Zpos mx < Zpos my * 2 ^ (ey - ex).
Proof.
  intros Hx Hy Hlt.
  pose proof (valid_finite _ _ _ Hx) as (Hex & _).
  apply valid_mantissa_bounds in Hx as [Hx _].
  apply valid_mantissa_bounds in Hy as [_ Hy].
  specialize (Hy ltac:(lia)).
  assert (H2 : 2 ^ 1 <= 2 ^ (ey - ex)) by (apply Z.pow_le_mono_r; lia).
  change (2 ^ prec) with (2 ^ (prec - 1) * 2 ^ 1) in Hx.
  nia.
Qed.

(** The sign of a difference of finite values is their order: gradual
    underflow leaves no two distinct values with a zero difference. *)
Lemma SFsub_ltb_zero x y :
  valid_binary x = true -> valid_binary y = true ->
  SFfinite x = true -> SFfinite y = true ->
  SFltb (S754_zero false) (SF64sub y x) = SFltb x y.
Proof.
  destruct x as [sx|sx| |sx mx ex], y as [sy|sy| |sy my ey];
    try discriminate; intros Vx Vy _ _.
  - destruct sx, sy; reflexivity.
  - destruct sx, sy; reflexivity.
  - destruct sx, sy; reflexivity.
  - pose proof (valid_finite _ _ _ Vx) as (Hex & _).
    pose proof (valid_finite _ _ _ Vy) as (Hey & _).
    unfold SF64sub, SFsub.
    rewrite binary_normalize_ltb_zero by lia.
    unfold SFltb, SFcompare.
    change (Pos.compare_cont Eq mx my) with (Pos.compare mx my).
    destruct (Z.compare_spec ex ey) as [E|E|E].
    + subst ey. rewrite Z.min_id.
      destruct (shl_align_spec mx ex ex (Z.le_refl _)) as [-> _].
      destruct (shl_align_spec my ex ex (Z.le_refl _)) as [-> _].
      rewrite Z.sub_diag, Z.pow_0_r, !Z.mul_1_r.
      destruct (Pos.compare_spec mx my) as [F|F|F], sx, sy; cbv [cond_Zopp]; cbv iota;
        try (apply Z.ltb_lt; lia); try (apply Z.ltb_ge; lia).
    + rewrite Z.min_r by lia.
      destruct (shl_align_spec mx ex ex (Z.le_refl _)) as [-> _].
      destruct (shl_align_spec my ey ex ltac:(lia)) as [-> _].
      rewrite Z.sub_diag, Z.pow_0_r, !Z.mul_1_r.
      pose proof (valid_lt_exp _ _ _ _ _ _ Vx Vy E) as H.
      assert (0 < Zpos my * 2 ^ (ey - ex)) by lia.
      destruct sx, sy; cbv [cond_Zopp]; cbv iota;
        try (apply Z.ltb_lt; lia); try (apply Z.ltb_ge; lia).
    + rewrite Z.min_l by lia.
      destruct (shl_align_spec my ey ey (Z.le_refl _)) as [-> _].
      destruct (shl_align_spec mx ex ey ltac:(lia)) as [-> _].
      rewrite Z.sub_diag, Z.pow_0_r, !Z.mul_1_r.
      pose proof (valid_lt_exp _ _ _ _ _ _ Vy Vx E) as H.
      assert (0 < Zpos mx * 2 ^ (ex - ey)) by lia.
      destruct sx, sy; cbv [cond_Zopp]; cbv iota;
        try (apply Z.ltb_lt; lia); try (apply Z.ltb_ge; lia).
Qed.

Lemma is_nan_spec x : is_nan x = true <-> Prim2SF x = S754_nan.
Proof.
  unfold is_nan. rewrite FloatAxioms.eqb_spec. unfold SFeqb.
  destruct (Prim2SF x) as [s|s| |s m e] eqn:E.
  all: try (rewrite SFcompare_refl by congruence; simpl; split; [discriminate|congruence]).
  simpl. split; auto.
Qed.

Lemma is_finite_spec x : is_finite x = SFfinite (Prim2SF x).
Proof.
  unfold is_finite, is_infinity, is_nan.
  rewrite !FloatAxioms.eqb_spec, abs_spec.
  change (Prim2SF infinity) with (S754_infinity false).
  unfold SFeqb.
  destruct (Prim2SF x) as [s|s| |s m e] eqn:E; try reflexivity.
  - destruct s; reflexivity.
  - rewrite SFcompare_refl by discriminate. reflexivity.
Qed.

(** [0 < y - x] exactly when [x < y], for finite [x] and [y]. *)
Lemma sub_pos_ltb (x y : float) :
  is_finite x = true -> is_finite y = true ->
  (0 <? y - x)%float = (x <? y)%float.
Proof.
  rewrite !is_finite_spec, !ltb_spec, sub_spec. intros Hx Hy.
  apply SFsub_ltb_zero; auto using Prim2SF_valid.
Qed.

(** *** The order of binary64 values *)

Ltac split_compares :=
  repeat match goal with
    | |- context [Z.compare ?a ?b] => destruct (Z.compare_spec a b)
    | |- context [Pos.compare ?a ?b] => destruct (Pos.compare_spec a b)
    end.

Lemma SFleb_trans x y z :
  SFleb x y = true -> SFleb y z = true -> SFleb x z = true.
Proof.
  unfold SFleb, SFcompare.
  change (Pos.compare_cont Eq) with Pos.compare.
  destruct x as [sx|sx| |sx mx ex], y as [sy|sy| |sy my ey],
           z as [sz|sz| |sz mz ez];
    try discriminate; try reflexivity;
    repeat match goal with s : bool |- _ => destruct s end;
    try discriminate; try reflexivity;
    split_compares; cbv iota; cbv [CompOpp]; intros;
    try discriminate; try reflexivity; lia.
Qed.

Lemma SFltb_leb x y : SFltb x y = true -> SFleb x y = true.
Proof. unfold SFltb, SFleb. destruct (SFcompare x y) as [[]|]; auto. Qed.

Lemma SFcompare_some x y :
  x <> S754_nan -> y <> S754_nan -> exists c, SFcompare x y = Some c.
Proof.
  destruct x, y; try congruence; intros _ _; simpl; eauto.
Qed.

Lemma SFleb_total x y :
  x <> S754_nan -> y <> S754_nan -> SFltb x y = false -> SFleb y x = true.
Proof.
  intros Hx Hy. unfold SFltb, SFleb. rewrite (SFcompare_antisym x y).
  destruct (SFcompare_some x y Hx Hy) as [c ->].
  destruct c; simpl; congruence.
Qed.

Lemma leb_trans (x y z : float) :
  (x <=? y)%float = true -> (y <=? z)%float = true -> (x <=? z)%float = true.
Proof. rewrite !leb_spec. apply SFleb_trans. Qed.

Lemma ltb_leb (x y : float) :
  (x <? y)%float = true -> (x <=? y)%float = true.
Proof. rewrite ltb_spec, leb_spec. apply SFltb_leb. Qed.

Lemma not_nan_spec x : is_nan x = false <-> Prim2SF x <> S754_nan.
Proof.
  rewrite <- is_nan_spec. destruct (is_nan x); split; congruence.
Qed.

Lemma leb_total (x y : float) :
  is_nan x = false -> is_nan y = false ->
  (x <? y)%float = false -> (y <=? x)%float = true.
Proof.
  rewrite !not_nan_spec, ltb_spec, leb_spec. apply SFleb_total.
Qed.

Lemma leb_refl (x : float) : is_nan x = false -> (x <=? x)%float = true.
Proof.
  rewrite not_nan_spec, leb_spec. intros H. unfold SFleb.
  now rewrite SFcompare_refl.
Qed.

Lemma is_finite_not_nan x : is_finite x = true -> is_nan x = false.
Proof.
  unfold is_finite. destruct (is_nan x); simpl; congruence.
Qed.

Lemma leb_zero_not_nan x : (0 <=? x)%float = true -> is_nan x = false.
Proof.
  rewrite leb_zero_spec, not_nan_spec. destruct (Prim2SF x); simpl; congruence.
Qed.

End F64Facts.

(** ** Strings, arrays and objects *)

Module JSFacts.

Lemma str_eqb_eq (a b : jsstring) : str_eqb a b = true <-> a = b.
Proof.
  revert b. induction a as [|x a IH]; intros [|y b]; simpl;
    try (split; [discriminate | congruence]); try tauto.
  rewrite andb_true_iff, N.eqb_eq, IH.
  split; [intros [-> ->] | intros [= -> ->]]; auto.
Qed.

Lemma str_eqb_refl (a : jsstring) : str_eqb a a = true.
Proof. now apply str_eqb_eq. Qed.

Lemma array_includes_In (arr : list jsstring) (x : jsstring) :
  array_includes arr x = true <-> In x arr.
Proof.
  unfold array_includes. rewrite existsb_exists. split.
  - intros (y & Hy & E). apply str_eqb_eq in E. now subst.
  - intros H. exists x. split; auto using str_eqb_refl.
Qed.

Lemma array_includes_ext (a b : list jsstring) :
  (forall x, In x a <-> In x b) ->
  forall x, array_includes a x = array_includes b x.
Proof.
  intros H x. apply eq_true_iff_eq. rewrite !array_includes_In. apply H.
Qed.

Lemma startsWith_spec (s p : jsstring) :
  startsWith s p = true <-> exists rest, s = p ++ rest.
Proof.
  revert s. induction p as [|x p IH]; intros s; simpl.
  - split; [intros _; now exists s | reflexivity].
  - destruct s as [|y s].
    + split; [discriminate | intros [rest [=]]].
    + rewrite andb_true_iff, N.eqb_eq, IH. split.
      * intros [-> [rest ->]]. now exists rest.
      * intros [rest [= -> ->]]. eauto.
Qed.

(** [includes] is the substring test. *)
Lemma includes_spec (s sub : jsstring) :
  includes s sub = true <-> exists pre post, s = pre ++ sub ++ post.
Proof.
  induction s as [|c s IH]; simpl; rewrite orb_true_iff, startsWith_spec.
  - split.
    + intros [[rest E] | [=]]. now exists [], rest.
    + intros ([|? ?] & post & E); [left; eauto | discriminate].
  - rewrite IH. split.
    + intros [[rest E] | (pre & post & ->)].
      * now exists [], rest.
      * now exists (c :: pre), post.
    + intros ([|c' pre] & post & E); simpl in E.
      * left. eauto.
      * injection E as -> ->. right. eauto.
Qed.

Lemma sort_insert_perm {A} (cmp : A -> A -> float) (x : A) (l : list A) :
  Permutation (sort_insert cmp x l) (x :: l).
Proof.
  induction l as [|y l IH]; simpl; auto.
  destruct (0 <? cmp x y)%float; auto.
  rewrite IH. apply perm_swap.
Qed.

Lemma sort_perm {A} (cmp : A -> A -> float) (l : list A) :
  Permutation (sort cmp l) l.
Proof.
  induction l as [|x l IH]; simpl; auto.
  rewrite sort_insert_perm. now constructor.
Qed.

End JSFacts.

(** ** The advisory composer *)

Lemma sortedDiseases_perm (p : object float) :
  Permutation (sortedDiseases p) p.
Proof. apply JSFacts.sort_perm. Qed.

(** The first entry of the sorted array holds a largest score. *)
Lemma sortedDiseases_head_max (p : object float) :
  finite_scores p ->
  forall d s rest, sortedDiseases p = (d, s) :: rest ->
  forall d' s', In (d', s') p -> (s' <=? s)%float = true.
Proof.
  unfold sortedDiseases, entries, sort.
  induction p as [|[k v] p IH]; intros Hfin d s rest E d' s' Hin.
  - contradiction.
  - assert (Hfin' : finite_scores p).
    { intros a b H. apply (Hfin a b). now right. }
    assert (Hv : is_finite v = true) by (apply (Hfin k); now left).
    simpl in E.
    pose proof (JSFacts.sort_perm (fun a b => (snd b - snd a)%float) p) as Hperm.
    unfold sort in Hperm.
    destruct (fold_right _ [] p) as [|[k1 v1] l] eqn:El.
    + apply Permutation_nil in Hperm. subst p.
      simpl in E. injection E as <- <- <-.
      destruct Hin as [[= <- <-]|[]].
      apply F64Facts.leb_refl. now apply F64Facts.is_finite_not_nan.
    + assert (Hv1 : is_finite v1 = true).
      { apply (Hfin' k1). apply (Permutation_in _ Hperm). now left. }
      specialize (IH Hfin' k1 v1 l eq_refl).
      simpl in E. rewrite F64Facts.sub_pos_ltb in E by assumption.
      destruct (v <? v1)%float eqn:Hlt.
      * injection E as <- <- <-.
        destruct Hin as [[= <- <-]|Hin].
        -- now apply F64Facts.ltb_leb.
        -- now apply (IH d' s').
      * injection E as <- <- <-.
        destruct Hin as [[= <- <-]|Hin].
        -- apply F64Facts.leb_refl. now apply F64Facts.is_finite_not_nan.
        -- apply F64Facts.leb_trans with v1.
           ++ now apply (IH d' s').
           ++ apply F64Facts.leb_total; auto using F64Facts.is_finite_not_nan.
Qed.

Lemma sortedDiseases_nonempty (p : object float) :
  p <> [] -> sortedDiseases p <> [].
Proof.
  intros Hp E. apply Hp. apply Permutation_nil.
  rewrite <- E. apply sortedDiseases_perm.
Qed.

(** Equal scores keep the order of the properties of the object. *)
Example sortedDiseases_example :
  sortedDiseases
    [(str "a", 0.3%float); (str "b", 0.85%float); (str "c", 0.3%float);
     (str "d", 0.85%float)]
  = [(str "b", 0.85%float); (str "d", 0.85%float); (str "a", 0.3%float);
     (str "c", 0.3%float)].
Proof. reflexivity. Qed.

(** C1. For a conversation whose [current_probabilities] is not empty,
    the advisory that [generate-advisory] composes carries the score that
    heads the sorted mapping as its confidence (a largest score, the
    scores being the finite numbers of a jsonb column), its [escalated]
    flag is set exactly when that score is strictly below 0.6, and the
    conversation row is left [escalated] when the flag is set and
    [completed] otherwise. *)
Theorem C1_escalation_threshold (supabase : KnowledgeBase) (user_id : jsstring)
  (conversation : Conversation) (language : jsstring)
  (row : Advisory) (reply : AdvisoryReply) (conversation' : Conversation) :
  probabilities_of conversation <> [] ->
  compose supabase user_id conversation language
    = (Composed row reply, conversation') ->
  let top := confidence_score row in
  In (advisory_disease_id row, top) (probabilities_of conversation) /\
  (finite_scores (probabilities_of conversation) ->
   forall d s, In (d, s) (probabilities_of conversation) ->
               (s <=? top)%float = true) /\
  (advisory_escalated row = true <-> (top <? 0.6)%float = true) /\
  reply_escalated reply = advisory_escalated row /\
  status conversation' =
    (if advisory_escalated row then escalated else completed).
Proof.
  intros Hne. unfold compose. fold (probabilities_of conversation).
  destruct (Nat.eqb _ 0); [discriminate|].
  destruct (sortedDiseases (probabilities_of conversation))
    as [|[topDiseaseId confidence] rest] eqn:Es; [discriminate|].
  destruct (data (single _ _)) as [disease|]; [|discriminate].
  intros [= <- <- <-]. simpl.
  split; [|split; [|split; [|split]]]; auto.
  - apply (Permutation_in _ (sortedDiseases_perm _)). rewrite Es. now left.
  - intros Hfin. apply (sortedDiseases_head_max _ Hfin _ _ _ Es).
  - tauto.
Qed.

Lemma C1_escalation_threshold_witness :
  exists row reply conversation',
    compose scenario_kb (str "farmer-1")
      (scenario_conversation [str "leaf_curl"]
         (Some [(str "dis-leaf-blight", 0.15%float)]))
      (str "en")
    = (Composed row reply, conversation') /\
    advisory_escalated row = true /\
    status conversation' = escalated.
Proof.
  eexists _, _, _. split; [reflexivity|].
  destruct (C1_escalation_threshold scenario_kb (str "farmer-1")
              (scenario_conversation [str "leaf_curl"]
                 (Some [(str "dis-leaf-blight", 0.15%float)]))
              (str "en") _ _ _ ltac:(discriminate) eq_refl)
    as (_ & _ & Hesc & _ & Hst).
  split.
  - apply Hesc. reflexivity.
  - rewrite Hst. rewrite (proj2 Hesc eq_refl). reflexivity.
Defined.

(** What a turn writes to [detected_symptoms]. *)
Lemma chat_orchestrator_evidence toLowerCase supabase existing fresh_id now body :
  detected_symptoms
    (snd (chat_orchestrator toLowerCase supabase existing fresh_id now body))
  = merge_symptoms (evidence_before existing)
      (detectSymptoms toLowerCase supabase (req_message body)
         (req_language body) (cropId body)).
Proof. destruct existing; reflexivity. Qed.

(** What a turn writes to [current_probabilities]: the scores of the
    evidence it saves. *)
Lemma chat_orchestrator_scores toLowerCase supabase existing fresh_id now body :
  current_probabilities
    (snd (chat_orchestrator toLowerCase supabase existing fresh_id now body))
  = Some (calculateDiseaseProbabilities supabase
            (detected_symptoms
               (snd (chat_orchestrator toLowerCase supabase existing
                       fresh_id now body)))).
Proof. destruct existing; reflexivity. Qed.

(** C2, as the code has it. The handler answers with the spec's
    [NoEvidenceError] (HTTP 400) exactly when [current_probabilities] is
    empty, as it is in the row a turn saves while no symptom has been
    detected. With one scored disease or more it composes an advisory when
    the row of the top disease can be read, and otherwise fails with the
    error [Disease information not found], never with [NoEvidenceError]. *)
Theorem C2_no_evidence_error (supabase : KnowledgeBase) (user_id : jsstring)
  (conversation : Conversation) (language : jsstring) :
  ((exists msg, fst (compose supabase user_id conversation language)
                = NoDiagnosis msg)
   <-> probabilities_of conversation = []) /\
  (probabilities_of conversation <> [] ->
   match top_disease supabase (probabilities_of conversation) with
   | Some _ =>
       exists row reply,
         fst (compose supabase user_id conversation language)
         = Composed row reply
   | None =>
       fst (compose supabase user_id conversation language)
       = ServerError (str "Disease information not found")
   end) /\
  (forall toLowerCase kb existing fresh_id now body,
     let saved :=
       snd (chat_orchestrator toLowerCase kb existing fresh_id now body) in
     detected_symptoms saved = [] ->
     exists msg, fst (compose supabase user_id saved language) = NoDiagnosis msg).
Proof.
  split; [|split].
  - unfold compose. fold (probabilities_of conversation).
    destruct (probabilities_of conversation) as [|e p] eqn:Ep.
    + simpl. split; eauto.
    + change (Nat.eqb (List.length (keys (e :: p))) 0) with false. cbv iota.
      destruct (sortedDiseases (e :: p)) as [|[topDiseaseId confidence] rest];
        [|destruct (data (single _ _))]; simpl;
        (split; [intros [msg [=]] | discriminate]).
  - unfold compose, top_disease. fold (probabilities_of conversation).
    destruct (probabilities_of conversation) as [|e p] eqn:Ep; [congruence|].
    intros _.
    change (Nat.eqb (List.length (keys (e :: p))) 0) with false. cbv iota.
    pose proof (sortedDiseases_nonempty (e :: p) ltac:(discriminate)) as Hs.
    destruct (sortedDiseases (e :: p)) as [|[topDiseaseId confidence] rest];
      [congruence|].
    destruct (data (single _ _)) as [disease|]; simpl; eauto.
  - intros toLowerCase kb existing fresh_id now body. cbv zeta. intros E.
    unfold compose. rewrite chat_orchestrator_scores, E. simpl. eauto.
Qed.

Lemma C2_no_evidence_error_witness :
  exists row reply,
    fst (compose scenario_kb (str "farmer-1")
           (scenario_conversation [str "leaf_curl"]
              (Some [(str "dis-leaf-blight", 0.15%float)]))
           (str "en"))
    = Composed row reply.
Proof.
  destruct (C2_no_evidence_error scenario_kb (str "farmer-1")
              (scenario_conversation [str "leaf_curl"]
                 (Some [(str "dis-leaf-blight", 0.15%float)]))
              (str "en")) as (_ & H & _).
  apply H. discriminate.
Defined.

(** A conversation that scores a disease whose row is gone from the
    [diseases] table has evidence, and so has one whose disease the
    failing [diseases] table cannot be read from; no advisory is composed
    for either. *)
Lemma C2_counterexample :
  let stale :=
    scenario_conversation [str "leaf_curl"]
      (Some [(str "dis-retired", 0.15%float)]) in
  let weak :=
    scenario_conversation [str "leaf_curl"]
      (Some [(str "dis-leaf-blight", 0.15%float)]) in
  List.length (probabilities_of stale) = 1 /\
  fst (compose scenario_kb (str "farmer-1") stale (str "en"))
  = ServerError (str "Disease information not found") /\
  List.length (probabilities_of weak) = 1 /\
  fst (compose diseases_unavailable_kb (str "farmer-1") weak (str "en"))
  = ServerError (str "Disease information not found").
Proof. repeat split; reflexivity. Qed.

(** ** The belief aggregator *)

(** C3, as the code has it. Two symptoms mapped to one disease with
    weights 0.9 and 0.8 give that disease the score
    [Math.min(0.9 * 0.5 + 0.8 * 0.5, 1.0)]. In the binary64 arithmetic of
    the code this is 0.8500000000000001, the value next above 0.85, and
    an advisory composed from it has confidence level High and is not
    escalated. *)
Theorem C3_scenario_A (s1 s2 d : jsstring) (p1 p2 : bool) :
  let rows :=
    [ {| mapping_symptom_id := s1; mapping_disease_id := d;
         probability_weight := 0.9; is_primary_indicator := p1 |};
      {| mapping_symptom_id := s2; mapping_disease_id := d;
         probability_weight := 0.8; is_primary_indicator := p2 |} ] in
  let score := Math_min (0.9 * 0.5 + 0.8 * 0.5) 1.0 in
  score_mappings rows = [(d, score)] /\
  score = 0.8500000000000001%float /\
  score = next_up 0.85 /\
  confidenceLevel score = High /\
  shouldEscalate score = false /\
  calculateDiseaseProbabilities scenario_kb
    [str "orange_pustules"; str "rust_spots"]
  = [(str "dis-wheat-rust", score)] /\
  exists row reply conversation',
    compose scenario_kb (str "farmer-1")
      (scenario_conversation [str "orange_pustules"; str "rust_spots"]
         (Some [(str "dis-wheat-rust", score)]))
      (str "en")
    = (Composed row reply, conversation') /\
    reply_confidenceLevel reply = str "High" /\
    advisory_escalated row = false /\
    status conversation' = completed.
Proof.
  cbv zeta. repeat split; try reflexivity.
  - unfold score_mappings, accumulate. simpl.
    rewrite JSFacts.str_eqb_refl. reflexivity.
  - eexists _, _, _. repeat split; reflexivity.
Qed.

(** The score of scenario A is not the binary64 value 0.85. *)
Lemma C3_counterexample :
  calculateDiseaseProbabilities scenario_kb
    [str "orange_pustules"; str "rust_spots"]
  = [(str "dis-wheat-rust", 0.8500000000000001%float)] /\
  (0.8500000000000001 =? 0.85)%float = false /\
  (0.85 <? 0.8500000000000001)%float = true.
Proof. repeat split; reflexivity. Qed.

Lemma select_ext {Row} (t : Table Row) (f g : Row -> bool) :
  (forall r, f r = g r) -> select t f = select t g.
Proof.
  intros H. destruct t as [rows|e]; simpl; auto.
  now rewrite (filter_ext f g H).
Qed.

(** The scores are a function of the set of the detected codes. *)
Lemma calculateDiseaseProbabilities_ext (supabase : KnowledgeBase)
  (d1 d2 : list jsstring) :
  (forall c, In c d1 <-> In c d2) ->
  calculateDiseaseProbabilities supabase d1
  = calculateDiseaseProbabilities supabase d2.
Proof.
  intros H. unfold calculateDiseaseProbabilities.
  rewrite (select_ext (symptoms supabase)
             (fun s => array_includes d1 (symptom_code s))
             (fun s => array_includes d2 (symptom_code s)))
    by (intros r; now apply JSFacts.array_includes_ext).
  destruct d1 as [|c1 d1], d2 as [|c2 d2]; simpl List.length; simpl Nat.eqb;
    cbv iota; try reflexivity.
  - exfalso. apply (proj2 (H c2)). now left.
  - exfalso. apply (proj1 (H c1)). now left.
Qed.

Lemma keys_set {V} (o : object V) (k : jsstring) (v : V) (k' : jsstring) :
  In k' (keys (set o k v)) <-> In k' (keys o) \/ k' = k.
Proof.
  induction o as [|[k0 v0] o IH]; simpl.
  - intuition.
  - destruct (str_eqb k0 k) eqn:E; simpl.
    + apply JSFacts.str_eqb_eq in E. subst. intuition.
    + unfold keys in IH. rewrite IH. intuition.
Qed.

Lemma keys_clamp (o : object float) : keys (clamp o) = keys o.
Proof.
  unfold clamp, keys. rewrite map_map. apply map_ext. now intros [d v].
Qed.

Lemma keys_fold_accumulate (rows : list SymptomDiseaseMapping) :
  forall (o : object float) (k : jsstring),
  In k (keys (fold_left accumulate rows o)) <->
  In k (keys o) \/ exists m, In m rows /\ mapping_disease_id m = k.
Proof.
  induction rows as [|m rows IH]; intros o k; simpl.
  - split; [auto | intros [H|(m & [] & _)]; auto].
  - rewrite IH. unfold accumulate. rewrite keys_set. split.
    + intros [[H|H]|(m' & H & E)]; eauto.
    + intros [H|(m' & [<-|H] & E)]; eauto.
Qed.

(** The diseases that are scored are those of the rows. *)
Lemma keys_score_mappings (rows : list SymptomDiseaseMapping) (k : jsstring) :
  In k (keys (score_mappings rows)) <->
  exists m, In m rows /\ mapping_disease_id m = k.
Proof.
  unfold score_mappings. rewrite keys_clamp, keys_fold_accumulate.
  simpl. intuition.
Qed.

Lemma get_set_same {V} (o : object V) (k : jsstring) (v : V) :
  get (set o k v) k = Some v.
Proof.
  induction o as [|[k0 v0] o IH]; simpl.
  - now rewrite JSFacts.str_eqb_refl.
  - destruct (str_eqb k0 k) eqn:E; simpl; rewrite E; auto.
Qed.

Lemma get_set_other {V} (o : object V) (k k' : jsstring) (v : V) :
  k <> k' -> get (set o k v) k' = get o k'.
Proof.
  intros Hk.
  assert (Hkk : str_eqb k k' = false).
  { destruct (str_eqb k k') eqn:E; auto.
    apply JSFacts.str_eqb_eq in E. contradiction. }
  induction o as [|[k0 v0] o IH]; simpl.
  - now rewrite Hkk.
  - destruct (str_eqb k0 k) eqn:E; simpl.
    + apply JSFacts.str_eqb_eq in E. subst k0. now rewrite Hkk.
    + now rewrite IH.
Qed.

Lemma get_clamp (o : object float) (d : jsstring) :
  get (clamp o) d = option_map (fun v => Math_min v 1.0%float) (get o d).
Proof.
  induction o as [|[k v] o IH]; simpl; auto.
  destruct (str_eqb k d); auto.
Qed.

Lemma get_fold_accumulate (d : jsstring) (rows : list SymptomDiseaseMapping) :
  forall o,
  get (fold_left accumulate rows o) d
  = fold_left step_score (weights_of d rows) (get o d).
Proof.
  unfold weights_of.
  induction rows as [|m rows IH]; intros o; simpl; auto.
  rewrite IH. unfold accumulate.
  destruct (str_eqb (mapping_disease_id m) d) eqn:E; simpl.
  - apply JSFacts.str_eqb_eq in E. rewrite E, get_set_same. reflexivity.
  - rewrite get_set_other; auto.
    intros E'. rewrite E', JSFacts.str_eqb_refl in E. discriminate.
Qed.

(** The score of a disease is the clamped sum over its own rows, in their
    order. *)
Lemma get_score_mappings (rows : list SymptomDiseaseMapping) (d : jsstring) :
  get (score_mappings rows) d = disease_score d rows.
Proof.
  unfold score_mappings, disease_score.
  now rewrite get_clamp, get_fold_accumulate.
Qed.

(** C4, as the code has it. The scores are a function of the set of the
    detected codes and of the knowledge base: two collections with the
    same codes, whatever their order, give identical mappings, and no
    evidence gives the empty mapping. As for the order in which the
    knowledge base answers with the weight rows: it leaves the set of the
    scored diseases unchanged, and the score of a disease is the clamped
    binary64 sum of [weight * 0.5] over its own rows in their order, so
    only a change in the relative order of the rows of one disease can
    change its score. *)
Theorem C4_deterministic_aggregation :
  (forall supabase d1 d2,
     (forall c, In c d1 <-> In c d2) ->
     calculateDiseaseProbabilities supabase d1
     = calculateDiseaseProbabilities supabase d2) /\
  (forall supabase, calculateDiseaseProbabilities supabase [] = []) /\
  (forall rows rows' d,
     Permutation rows rows' ->
     (In d (keys (score_mappings rows)) <-> In d (keys (score_mappings rows')))) /\
  (forall rows rows' d,
     weights_of d rows = weights_of d rows' ->
     get (score_mappings rows) d = get (score_mappings rows') d).
Proof.
  split; [exact calculateDiseaseProbabilities_ext|].
  split; [reflexivity|].
  split.
  - intros rows rows' d Hperm. rewrite !keys_score_mappings.
    split; intros (m & Hm & E); exists m; split; auto.
    + now apply (Permutation_in _ Hperm).
    + now apply (Permutation_in _ (Permutation_sym Hperm)).
  - intros rows rows' d E. rewrite !get_score_mappings.
    unfold disease_score. now rewrite E.
Qed.

Lemma C4_deterministic_aggregation_witness :
  calculateDiseaseProbabilities scenario_kb
    [str "orange_pustules"; str "rust_spots"]
  = calculateDiseaseProbabilities scenario_kb
      [str "rust_spots"; str "orange_pustules"; str "rust_spots"].
Proof.
  apply (proj1 C4_deterministic_aggregation).
  intros c. simpl. intuition.
Defined.

(** The same weight rows, folded in two orders, give two scores. *)
Lemma C4_counterexample :
  let evidence := [str "orange_pustules"; str "rust_spots"; str "leaf_curl"] in
  Permutation blight_rows (rev blight_rows) /\
  calculateDiseaseProbabilities (blight_kb blight_rows) evidence
  = [(str "dis-leaf-blight", 0.30000000000000004%float)] /\
  calculateDiseaseProbabilities (blight_kb (rev blight_rows)) evidence
  = [(str "dis-leaf-blight", 0.3%float)] /\
  (0.30000000000000004 =? 0.3)%float = false.
Proof.
  cbv zeta. split; [apply Permutation_rev|]. repeat split; reflexivity.
Qed.

(** ** Evidence accumulation *)

Lemma push_symptom_extends (l : list jsstring) (c : jsstring) :
  exists added, push_symptom l c = l ++ added.
Proof.
  unfold push_symptom. destruct (array_includes l c).
  - exists []. now rewrite app_nil_r.
  - now exists [c].
Qed.

Lemma fold_push_extends (codes : list jsstring) :
  forall l, exists added, fold_left push_symptom codes l = l ++ added.
Proof.
  induction codes as [|c codes IH]; intros l; simpl.
  - exists []. now rewrite app_nil_r.
  - destruct (push_symptom_extends l c) as [a1 ->].
    destruct (IH (l ++ a1)) as [a2 ->].
    exists (a1 ++ a2). now rewrite app_assoc.
Qed.

Lemma push_symptom_present (l : list jsstring) (c : jsstring) :
  In c l -> push_symptom l c = l.
Proof.
  intros H. unfold push_symptom.
  now rewrite (proj2 (JSFacts.array_includes_In l c) H).
Qed.

Lemma fold_push_present (codes : list jsstring) :
  forall l, (forall c, In c codes -> In c l) ->
  fold_left push_symptom codes l = l.
Proof.
  induction codes as [|c codes IH]; intros l H; simpl; auto.
  rewrite push_symptom_present by (apply H; now left).
  apply IH. intros c' Hc'. apply H. now right.
Qed.

Lemma push_symptom_NoDup (l : list jsstring) (c : jsstring) :
  NoDup l -> NoDup (push_symptom l c).
Proof.
  intros H. unfold push_symptom.
  destruct (array_includes l c) eqn:E; auto.
  apply NoDup_app; auto.
  - constructor; [intros [] | constructor].
  - intros x Hx [<-|[]].
    apply JSFacts.array_includes_In in Hx. congruence.
Qed.

Lemma fold_push_NoDup (codes : list jsstring) :
  forall l, NoDup l -> NoDup (fold_left push_symptom codes l).
Proof.
  induction codes as [|c codes IH]; intros l H; simpl; auto.
  apply IH. now apply push_symptom_NoDup.
Qed.

Lemma session_evidence toLowerCase supabase requests :
  forall existing,
  (exists added,
     evidence_before (session toLowerCase supabase existing requests)
     = evidence_before existing ++ added) /\
  (NoDup (evidence_before existing) ->
   NoDup (evidence_before (session toLowerCase supabase existing requests))).
Proof.
  induction requests as [|[[fresh_id now] body] requests IH]; intros existing;
    cbn [session].
  - split; auto. exists []. now rewrite app_nil_r.
  - destruct (IH (Some (snd (chat_orchestrator toLowerCase supabase existing
                               fresh_id now body)))) as [[a2 E2] Hnd].
    change (evidence_before (Some ?c)) with (detected_symptoms c) in E2, Hnd.
    rewrite chat_orchestrator_evidence in E2, Hnd. unfold merge_symptoms in *.
    split.
    + destruct (fold_push_extends
                  (map symptom_code
                     (detectSymptoms toLowerCase supabase (req_message body)
                        (req_language body) (cropId body)))
                  (evidence_before existing)) as [a1 E1].
      rewrite E2, E1. exists (a1 ++ a2). now rewrite app_assoc.
    + intros H. apply Hnd. now apply fold_push_NoDup.
Qed.

(** C5. The evidence a turn leaves in the conversation row extends the
    evidence it found there: every code is kept, in place, and new codes
    are added behind. Folding in a code that is already present changes
    nothing, and an evidence list without duplicates stays so: from its
    first turn on, a session never holds a code twice and never loses
    one. *)
Theorem C5_monotonic_evidence (toLowerCase : jsstring -> jsstring)
  (supabase : KnowledgeBase) (existing : option Conversation)
  (fresh_id now : jsstring) (body : ConversationRequest) :
  let after :=
    detected_symptoms
      (snd (chat_orchestrator toLowerCase supabase existing fresh_id now body)) in
  (exists added, after = evidence_before existing ++ added) /\
  (forall c, In c (evidence_before existing) -> In c after) /\
  (forall l c, In c l -> push_symptom l c = l) /\
  (forall l symptomMatches,
     (forall s, In s symptomMatches -> In (symptom_code s) l) ->
     merge_symptoms l symptomMatches = l) /\
  (NoDup (evidence_before existing) -> NoDup after) /\
  (forall requests,
     NoDup (evidence_before (session toLowerCase supabase None requests))) /\
  (forall requests c,
     In c (evidence_before existing) ->
     In c (evidence_before (session toLowerCase supabase existing requests))).
Proof.
  cbv zeta. rewrite chat_orchestrator_evidence. unfold merge_symptoms.
  split; [|split; [|split; [|split; [|split; [|split]]]]].
  - apply fold_push_extends.
  - intros c Hc.
    destruct (fold_push_extends
                (map symptom_code
                   (detectSymptoms toLowerCase supabase (req_message body)
                      (req_language body) (cropId body)))
                (evidence_before existing)) as [added ->].
    apply in_or_app. now left.
  - apply push_symptom_present.
  - intros l symptomMatches H. apply fold_push_present.
    intros c Hc. apply in_map_iff in Hc as (s & <- & Hs). now apply H.
  - apply fold_push_NoDup.
  - intros requests.
    apply (session_evidence toLowerCase supabase requests None). constructor.
  - intros requests c Hc.
    destruct (session_evidence toLowerCase supabase requests existing)
      as [[added ->] _].
    apply in_or_app. now left.
Qed.

Lemma C5_monotonic_evidence_witness :
  NoDup
    (detected_symptoms
       (snd (chat_orchestrator ascii_toLowerCase scenario_kb
               (Some (scenario_conversation [str "leaf_curl"] None))
               (str "conv-2") (str "2026-02-27T01:06:15.000Z") scenario_turn))) /\
  detected_symptoms
    (snd (chat_orchestrator ascii_toLowerCase scenario_kb
            (Some (scenario_conversation [str "leaf_curl"] None))
            (str "conv-2") (str "2026-02-27T01:06:15.000Z") scenario_turn))
  = [str "leaf_curl"; str "orange_pustules"].
Proof.
  split; [|reflexivity].
  destruct (C5_monotonic_evidence ascii_toLowerCase scenario_kb
              (Some (scenario_conversation [str "leaf_curl"] None))
              (str "conv-2") (str "2026-02-27T01:06:15.000Z") scenario_turn)
    as (_ & _ & _ & _ & H & _).
  apply H. simpl. constructor; [intros [] | constructor].
Defined.

(** ** Bounds on the scores *)

Lemma Math_min_unit (v : float) :
  (0 <=? v)%float = true ->
  (0 <=? Math_min v 1)%float = true /\ (Math_min v 1 <=? 1)%float = true.
Proof.
  intros Hv. pose proof (F64Facts.leb_zero_not_nan v Hv) as Hnan.
  unfold Math_min. rewrite Hnan. change (is_nan 1) with false. simpl orb.
  cbv iota.
  destruct (v <? 1)%float eqn:H1.
  - split; auto using F64Facts.ltb_leb.
  - destruct (1 <? v)%float eqn:H2; [split; reflexivity|].
    destruct (get_sign v); [|split; reflexivity].
    split; auto. now apply F64Facts.leb_total.
Qed.

Lemma In_set {V} (o : object V) (k : jsstring) (x : V) (d : jsstring) (v : V) :
  In (d, v) (set o k x) -> In (d, v) o \/ v = x.
Proof.
  induction o as [|[k0 v0] o IH]; simpl.
  - intros [[= _ <-]|[]]. now right.
  - destruct (str_eqb k0 k); simpl.
    + intros [[= _ <-]|H]; auto.
    + intros [H|H]; auto. destruct (IH H); auto.
Qed.

Lemma get_In {V} (o : object V) (k : jsstring) (v : V) :
  get o k = Some v -> exists k', In (k', v) o.
Proof.
  induction o as [|[k0 v0] o IH]; simpl; [discriminate|].
  destruct (str_eqb k0 k).
  - intros [= ->]. eauto.
  - intros H. destruct (IH H) as [k' Hk']. eauto.
Qed.

Lemma accumulate_nonneg (o : object float) (m : SymptomDiseaseMapping) :
  nonneg_scores o ->
  (0 <=? probability_weight m)%float = true ->
  nonneg_scores (accumulate o m).
Proof.
  intros Ho Hw d v Hin. unfold accumulate in Hin.
  apply In_set in Hin as [Hin| ->]; [now apply (Ho d)|].
  apply F64Facts.add_nonneg; [|now apply F64Facts.mul_half_nonneg].
  destruct (get o (mapping_disease_id m)) as [v0|] eqn:E; [|reflexivity].
  destruct (falsy v0); [reflexivity|].
  apply get_In in E as [k' Hk']. now apply (Ho k').
Qed.

Lemma fold_accumulate_nonneg (rows : list SymptomDiseaseMapping) :
  forall o,
  nonneg_scores o ->
  (forall m, In m rows -> (0 <=? probability_weight m)%float = true) ->
  nonneg_scores (fold_left accumulate rows o).
Proof.
  induction rows as [|m rows IH]; intros o Ho Hw; simpl; auto.
  apply IH.
  - apply accumulate_nonneg; auto. apply Hw. now left.
  - intros m' Hm'. apply Hw. now right.
Qed.

Lemma score_mappings_unit (rows : list SymptomDiseaseMapping) :
  (forall m, In m rows -> (0 <=? probability_weight m)%float = true) ->
  forall d v, In (d, v) (score_mappings rows) ->
  (0 <=? v)%float = true /\ (v <=? 1)%float = true.
Proof.
  intros Hw d v Hin. unfold score_mappings, clamp in Hin.
  apply in_map_iff in Hin as ([d0 v0] & [= <- <-] & Hin).
  apply Math_min_unit.
  apply (fold_accumulate_nonneg rows [] ltac:(intros ? ? []) Hw d0 v0 Hin).
Qed.

(** C6. When every weight of the mapping table lies in [[0, 1]], every
    score the aggregation produces lies in [[0, 1]]: the contributions
    [weight * 0.5] are zero or above, so are their sums, and the clamp
    caps them at 1. *)
Theorem C6_scores_in_unit_interval (supabase : KnowledgeBase)
  (detectedSymptoms : list jsstring) :
  weights_in_unit_interval supabase ->
  forall d v,
    In (d, v) (calculateDiseaseProbabilities supabase detectedSymptoms) ->
    (0 <=? v)%float = true /\ (v <=? 1)%float = true.
Proof.
  unfold weights_in_unit_interval, calculateDiseaseProbabilities.
  intros Hw d v.
  destruct (Nat.eqb _ 0); [intros []|].
  destruct (error (select (symptoms supabase) _)); [intros []|].
  destruct (data (select (symptoms supabase) _)) as [[|s0 ss]|]; try (intros []).
  destruct (symptom_disease_mapping supabase) as [rows|e]; simpl; [|intros []].
  apply score_mappings_unit.
  intros m Hm. apply filter_In in Hm as [Hm _]. now apply Hw.
Qed.

Lemma C6_scores_in_unit_interval_witness :
  (0 <=? 0.8500000000000001)%float = true /\
  (0.8500000000000001 <=? 1)%float = true.
Proof.
  apply (C6_scores_in_unit_interval scenario_kb
           [str "orange_pustules"; str "rust_spots"]
           ltac:(simpl; intros m [<-|[<-|[<-|[]]]]; split; reflexivity)
           (str "dis-wheat-rust") 0.8500000000000001%float).
  left. reflexivity.
Defined.

(** ** Action steps *)



Lemma number_steps_actions (steps : list jsstring) :
  forall index, map action (number_steps index steps) = map trim steps.
Proof.
  induction steps as [|x steps IH]; intros index; simpl; auto.
  now rewrite IH.
Qed.


(** The split is at every run of digits that a dot follows, wherever it
    stands: a decimal number in the text is split too. *)
Example split_digits_dot_decimal :
  split_digits_dot (str "1. Apply 2.5 kg urea 12. Irrigate") [] 0
  = [ []; str " Apply "; str "5 kg urea "; str " Irrigate" ].
Proof. reflexivity. Qed.

(** *** The matcher *)







(** *** The scanner *)













(** ** The question selector *)

Lemma insert_by_priority_perm (q : DiagnosticQuestion) (l : list DiagnosticQuestion) :
  Permutation (insert_by_priority q l) (q :: l).
Proof.
  induction l as [|q' l IH]; simpl; auto.
  destruct (priority q <? priority q')%Z; auto.
  rewrite IH. apply perm_swap.
Qed.

Lemma order_by_priority_desc_perm (rows : list DiagnosticQuestion) :
  Permutation (order_by_priority_desc rows) rows.
Proof.
  induction rows as [|q rows IH]; simpl; auto.
  rewrite insert_by_priority_perm. now constructor.
Qed.

Lemma insert_by_priority_sorted (q : DiagnosticQuestion) (l : list DiagnosticQuestion) :
  descending_priority l -> descending_priority (insert_by_priority q l).
Proof.
  unfold descending_priority.
  induction l as [|q' l IH]; intros Hl; simpl.
  - constructor; constructor.
  - inversion Hl as [|? ? Hl' Hall]; subst.
    destruct (priority q <? priority q')%Z eqn:E.
    + apply Z.ltb_lt in E. constructor; auto.
      rewrite Forall_forall in *. intros x Hx.
      apply (Permutation_in _ (insert_by_priority_perm q l)) in Hx.
      destruct Hx as [<-|Hx]; [lia | auto].
    + apply Z.ltb_ge in E. constructor; auto.
      constructor; auto.
      rewrite Forall_forall in *. intros x Hx.
      specialize (Hall x Hx). lia.
Qed.

Lemma order_by_priority_desc_sorted (rows : list DiagnosticQuestion) :
  descending_priority (order_by_priority_desc rows).
Proof.
  induction rows as [|q rows IH]; simpl.
  - constructor.
  - now apply insert_by_priority_sorted.
Qed.

Lemma hasMatchingSymptom_spec (detectedSymptoms : list jsstring)
  (q : DiagnosticQuestion) :
  hasMatchingSymptom detectedSymptoms q = true <->
  exists ts, In ts (triggerSymptoms q) /\ In ts detectedSymptoms.
Proof.
  unfold hasMatchingSymptom. rewrite existsb_exists.
  split; intros (ts & H1 & H2); exists ts; split; auto;
    now apply JSFacts.array_includes_In.
Qed.

Lemma alreadyAsked_spec (conversationHistory : list ChatMessage)
  (language : jsstring) (q : DiagnosticQuestion) :
  alreadyAsked (askedQuestions conversationHistory) language q = true <->
  exists m, In m conversationHistory /\ role m = assistant /\
            Substring (questionText language q) (content m).
Proof.
  unfold alreadyAsked, askedQuestions, Substring.
  rewrite existsb_exists. split.
  - intros (a & Ha & Hinc). apply in_map_iff in Ha as (m & <- & Hm).
    apply filter_In in Hm as [Hm Hr].
    exists m. repeat split; auto.
    + now destruct (role m).
    + now apply JSFacts.includes_spec.
  - intros (m & Hm & Hr & Hsub). exists (content m). split.
    + apply in_map. apply filter_In. split; auto. now rewrite Hr.
    + now apply JSFacts.includes_spec.
Qed.

(** The test of the loop is the qualification of the specification. *)
Lemma qualifies_spec (detectedSymptoms : list jsstring)
  (conversationHistory : list ChatMessage) (language : jsstring)
  (q : DiagnosticQuestion) :
  hasMatchingSymptom detectedSymptoms q
  && negb (alreadyAsked (askedQuestions conversationHistory) language q) = true
  <-> qualifies detectedSymptoms conversationHistory language q.
Proof.
  unfold qualifies.
  rewrite andb_true_iff, negb_true_iff, hasMatchingSymptom_spec.
  rewrite <- not_true_iff_false, alreadyAsked_spec.
  split; intros [H1 H2]; split; auto.
  - intros m Hm Hr Hsub. apply H2. eauto.
  - intros (m & Hm & Hr & Hsub). now apply (H2 m).
Qed.

Lemma find_first {A} (f : A -> bool) (l : list A) :
  match find f l with
  | Some x =>
      exists before after,
        l = before ++ x :: after /\ f x = true /\
        forall y, In y before -> f y = false
  | None => forall y, In y l -> f y = false
  end.
Proof.
  induction l as [|a l IH]; simpl.
  - intros y [].
  - destruct (f a) eqn:E.
    + exists [], l. repeat split; auto. intros y [].
    + destruct (find f l) as [x|].
      * destruct IH as (before & after & -> & Hx & Hb).
        exists (a :: before), after. repeat split; auto.
        intros y [<-|Hy]; auto.
      * intros y [<-|Hy]; auto.
Qed.

(** C8. [getNextQuestion] scans the question catalog in descending
    priority order and returns the first question that qualifies: one of
    its trigger symptoms is detected and its localized text is a substring
    of no earlier assistant message. It returns nothing exactly when no
    question qualifies, so the text of the question it returns never
    occurs in an earlier assistant message. *)
Theorem C8_next_question (supabase : KnowledgeBase)
  (detectedSymptoms : list jsstring) (conversationHistory : list ChatMessage)
  (language : jsstring) :
  let catalog := ordered_questions supabase in
  descending_priority catalog /\
  (forall rows, diagnostic_questions supabase = Rows rows ->
                Permutation catalog rows) /\
  match getNextQuestion supabase detectedSymptoms conversationHistory language with
  | Some next =>
      exists before q after,
        catalog = before ++ q :: after /\
        next = asked_as language q /\
        qualifies detectedSymptoms conversationHistory language q /\
        forall q', In q' before ->
          ~ qualifies detectedSymptoms conversationHistory language q'
  | None =>
      forall q, In q catalog ->
        ~ qualifies detectedSymptoms conversationHistory language q
  end /\
  (forall next,
     getNextQuestion supabase detectedSymptoms conversationHistory language
     = Some next ->
     forall m, In m conversationHistory -> role m = assistant ->
               ~ Substring (question next) (content m)).
Proof.
  cbv zeta.
  assert (Hmain :
    match getNextQuestion supabase detectedSymptoms conversationHistory language with
    | Some next =>
        exists before q after,
          ordered_questions supabase = before ++ q :: after /\
          next = asked_as language q /\
          qualifies detectedSymptoms conversationHistory language q /\
          forall q', In q' before ->
            ~ qualifies detectedSymptoms conversationHistory language q'
    | None =>
        forall q, In q (ordered_questions supabase) ->
          ~ qualifies detectedSymptoms conversationHistory language q
    end).
  { unfold getNextQuestion.
    pose proof (find_first
      (fun q => hasMatchingSymptom detectedSymptoms q
                && negb (alreadyAsked (askedQuestions conversationHistory) language q))
      (ordered_questions supabase)) as H.
    destruct (find _ (ordered_questions supabase)) as [q|].
    - destruct H as (before & after & E & Hq & Hb).
      exists before, q, after.
      split; [exact E|]. split; [reflexivity|]. split.
      + now apply qualifies_spec.
      + intros q' Hq' Hqual. apply qualifies_spec in Hqual.
        rewrite (Hb q' Hq') in Hqual. discriminate.
    - intros q Hq Hqual. apply qualifies_spec in Hqual.
      rewrite (H q Hq) in Hqual. discriminate. }
  split; [|split; [|split]].
  - unfold ordered_questions, select_by_priority.
    destruct (diagnostic_questions supabase); simpl.
    + apply order_by_priority_desc_sorted.
    + constructor.
  - intros rows E. unfold ordered_questions, select_by_priority.
    rewrite E. simpl. apply order_by_priority_desc_perm.
  - exact Hmain.
  - intros next E. rewrite E in Hmain.
    destruct Hmain as (before & q & after & _ & -> & [_ Hq] & _).
    exact Hq.
Qed.

Lemma C8_next_question_witness :
  getNextQuestion scenario_kb [str "leaf_curl"; str "orange_pustules"]
    scenario_history (str "en")
  = Some (asked_as (str "en") question_sticky) /\
  forall m, In m scenario_history -> role m = assistant ->
            ~ Substring (str "Do the leaves feel sticky?") (content m).
Proof.
  split; [reflexivity|].
  apply (proj2 (proj2 (proj2
           (C8_next_question scenario_kb [str "leaf_curl"; str "orange_pustules"]
              scenario_history (str "en"))))
           (asked_as (str "en") question_sticky)).
  reflexivity.
Defined.

(** ** Failed reads *)

(** C9, as the code has it. [calculateDiseaseProbabilities] absorbs a
    failed read of the [symptoms] or of the [symptom_disease_mapping]
    table: the error is logged and the empty mapping is returned, so the
    turn completes with a normal reply that carries no score and offers no
    question, and the row is saved with empty [current_probabilities]. *)
Theorem C9_failed_reads_absorbed (toLowerCase : jsstring -> jsstring)
  (supabase : KnowledgeBase) (e : PostgrestError) :
  symptoms supabase = Unavailable e \/
  symptom_disease_mapping supabase = Unavailable e ->
  (forall detectedSymptoms,
     calculateDiseaseProbabilities supabase detectedSymptoms = []) /\
  (forall existing fresh_id now body,
     let turn := chat_orchestrator toLowerCase supabase existing fresh_id now body in
     probabilities (fst turn) = [] /\
     nextQuestion (fst turn) = None /\
     current_probabilities (snd turn) = Some []).
Proof.
  intros H.
  assert (Hcalc : forall detectedSymptoms,
            calculateDiseaseProbabilities supabase detectedSymptoms = []).
  { intros detectedSymptoms. unfold calculateDiseaseProbabilities.
    destruct (Nat.eqb _ 0); auto.
    destruct H as [-> | ->]; simpl; auto.
    destruct (symptoms supabase) as [rows|e']; simpl; auto.
    destruct (filter _ rows); auto. }
  split; auto.
  intros existing fresh_id now body. cbv zeta.
  unfold chat_orchestrator. simpl. rewrite !Hcalc. simpl.
  rewrite andb_false_r. auto.
Qed.

Lemma C9_failed_reads_absorbed_witness :
  calculateDiseaseProbabilities unavailable_kb [str "rust_spots"] = [].
Proof.
  apply (C9_failed_reads_absorbed ascii_toLowerCase unavailable_kb
           {| message := str "connection refused" |}).
  left. reflexivity.
Defined.

(** With the [symptoms] table failing, the evidence that scores wheat rust
    at 0.4 yields the empty mapping, in a reply like any other. *)
Lemma C9_counterexample :
  symptoms unavailable_kb
  = Unavailable {| message := str "connection refused" |} /\
  calculateDiseaseProbabilities unavailable_kb [str "rust_spots"] = [] /\
  calculateDiseaseProbabilities scenario_kb [str "rust_spots"]
  = [(str "dis-wheat-rust", 0.4%float)] /\
  probabilities
    (fst (chat_orchestrator ascii_toLowerCase unavailable_kb
            (Some (scenario_conversation [str "rust_spots"] None))
            (str "conv-2") (str "2026-02-27T01:06:15.000Z") scenario_turn))
  = [].
Proof. repeat split; reflexivity. Qed.

(** ** Symptom extraction *)

(** The cues of a description are its words of more than three units. *)
Example extractKeywords_example :
  extractKeywords (str " Yellow leaves, on  the stem,with pustules ")
  = [str "Yellow"; str "leaves"; str "stem"; str "with"; str "pustules"].
Proof. reflexivity. Qed.

(** C10. When the crop given to [detectSymptoms] has no disease, or its
    diseases have no row in the symptom-disease mapping, the candidates
    are the whole symptom catalog: the request that is run, and the
    symptoms that are detected, are those of a call without a crop. *)
Theorem C10_crop_filter_fallback (toLowerCase : jsstring -> jsstring)
  (supabase : KnowledgeBase) (message language crop : jsstring) :
  crop_diseases supabase crop = [] \/ crop_mappings supabase crop = [] ->
  candidate_symptoms supabase (Some crop) = candidate_symptoms supabase None /\
  detectSymptoms toLowerCase supabase message language (Some crop)
  = detectSymptoms toLowerCase supabase message language None.
Proof.
  intros H.
  assert (Hc : candidate_symptoms supabase (Some crop)
               = candidate_symptoms supabase None).
  { unfold candidate_symptoms, crop_mappings, crop_diseases in *.
    destruct (truthy (Some crop)); [|reflexivity].
    change (truthy None) with false. cbv iota.
    destruct (diseases supabase) as [drows|ed]; simpl in *; [|reflexivity].
    destruct (filter (of_crop (Some crop)) drows) as [|d ds]; [reflexivity|].
    destruct H as [H|H]; [discriminate|].
    destruct (symptom_disease_mapping supabase) as [mrows|em]; simpl in *;
      [|reflexivity].
    now rewrite H. }
  split; [exact Hc|].
  unfold detectSymptoms. now rewrite Hc.
Qed.

Lemma C10_crop_filter_fallback_witness :
  detectSymptoms ascii_toLowerCase scenario_kb
    (str "Orange pustules and leaves curling") (str "en") (Some (str "crop-rice"))
  = [orange_pustules; leaf_curl] /\
  detectSymptoms ascii_toLowerCase (blight_kb [])
    (str "Orange pustules and leaves curling") (str "en") (Some (str "crop-wheat"))
  = [orange_pustules; leaf_curl].
Proof.
  split.
  - rewrite (proj2 (C10_crop_filter_fallback ascii_toLowerCase scenario_kb
                      (str "Orange pustules and leaves curling") (str "en")
                      (str "crop-rice") (or_introl eq_refl))).
    reflexivity.
  - rewrite (proj2 (C10_crop_filter_fallback ascii_toLowerCase (blight_kb [])
                      (str "Orange pustules and leaves curling") (str "en")
                      (str "crop-wheat") (or_intror eq_refl))).
    reflexivity.
Defined.

(** A crop with diseases and mapping rows does narrow the candidates. *)
Example crop_filter_narrows :
  detectSymptoms ascii_toLowerCase scenario_kb
    (str "Orange pustules and leaves curling") (str "en") (Some (str "crop-wheat"))
  = [orange_pustules].
Proof. reflexivity. Qed.

(** * Further properties *)

(** ** More of the order of binary64 values *)

Module F64Order.
Import F64 F64Facts.

Lemma SFltb_negb_leb x y :
  x <> S754_nan -> y <> S754_nan -> SFltb x y = negb (SFleb y x).
Proof.
  intros Hx Hy. unfold SFltb, SFleb. rewrite (SFcompare_antisym x y).
  destruct (SFcompare_some x y Hx Hy) as [c ->]. now destruct c.
Qed.

Lemma ltb_negb_leb (x y : float) :
  is_nan x = false -> is_nan y = false ->
  (x <? y)%float = negb (y <=? x)%float.
Proof.
  rewrite !not_nan_spec, ltb_spec, leb_spec. apply SFltb_negb_leb.
Qed.

Lemma leb_not_nan (x y : float) :
  (x <=? y)%float = true -> is_nan x = false /\ is_nan y = false.
Proof.
  rewrite leb_spec, !not_nan_spec. unfold SFleb.
  destruct (Prim2SF x), (Prim2SF y); simpl; try discriminate;
    split; congruence.
Qed.

Lemma ltb_not_nan (x y : float) :
  (x <? y)%float = true -> is_nan x = false /\ is_nan y = false.
Proof. intros H. apply leb_not_nan. now apply ltb_leb. Qed.

Lemma leb_ltb_false (x y : float) :
  (x <=? y)%float = true -> (y <? x)%float = false.
Proof.
  intros H. destruct (leb_not_nan x y H) as [Hx Hy].
  rewrite ltb_negb_leb, H by assumption. reflexivity.
Qed.

Lemma leb_ltb_trans (x y z : float) :
  (x <=? y)%float = true -> (y <? z)%float = true -> (x <? z)%float = true.
Proof.
  intros H1 H2.
  destruct (leb_not_nan x y H1) as [Hx Hy].
  destruct (ltb_not_nan y z H2) as [_ Hz].
  rewrite ltb_negb_leb by assumption.
  rewrite ltb_negb_leb in H2 by assumption.
  destruct (z <=? x)%float eqn:E; auto.
  rewrite (leb_trans z x y E H1) in H2. discriminate.
Qed.

(** [Math.max] of two numbers is one of them and bounds both. *)
Lemma Math_max2_bounds (a b : float) :
  is_nan a = false -> is_nan b = false ->
  is_nan (Math_max2 a b) = false /\
  (a <=? Math_max2 a b)%float = true /\
  (b <=? Math_max2 a b)%float = true.
Proof.
  intros Ha Hb. unfold Math_max2. rewrite Ha, Hb. simpl orb. cbv iota.
  destruct (a <? b)%float eqn:H1.
  - repeat split; auto using ltb_leb, leb_refl.
  - destruct (b <? a)%float eqn:H2.
    + repeat split; auto using ltb_leb, leb_refl.
    + destruct (get_sign a); repeat split; auto using leb_refl, leb_total.
Qed.

Lemma fold_Math_max2_bounds (values : list float) :
  forall acc,
  is_nan acc = false ->
  (forall v, In v values -> is_nan v = false) ->
  is_nan (fold_left Math_max2 values acc) = false /\
  (acc <=? fold_left Math_max2 values acc)%float = true /\
  (forall v, In v values -> (v <=? fold_left Math_max2 values acc)%float = true).
Proof.
  induction values as [|x values IH]; intros acc Hacc Hv; simpl.
  - repeat split; auto using leb_refl.
  - destruct (Math_max2_bounds acc x Hacc (Hv x (or_introl eq_refl)))
      as (Hn & Ha & Hx).
    destruct (IH (Math_max2 acc x) Hn (fun v H => Hv v (or_intror H)))
      as (Hn' & Hm & Hall).
    repeat split; auto.
    + now apply leb_trans with (Math_max2 acc x).
    + intros v [<-|Hin]; auto.
      now apply leb_trans with (Math_max2 acc x).
Qed.

Lemma Math_max_bounds (values : list float) (v : float) :
  (forall v, In v values -> is_nan v = false) ->
  In v values -> (v <=? Math_max values)%float = true.
Proof.
  intros Hv Hin. unfold Math_max.
  now apply (fold_Math_max2_bounds values neg_infinity eq_refl Hv).
Qed.

(** [Math.max] is NaN as soon as an argument is. *)
Lemma Math_max2_not_nan (a b : float) :
  is_nan (Math_max2 a b) = false -> is_nan a = false /\ is_nan b = false.
Proof.
  unfold Math_max2.
  destruct (is_nan a), (is_nan b); simpl; auto; intros H; vm_compute in H;
    discriminate.
Qed.

Lemma fold_Math_max2_not_nan (values : list float) :
  forall acc,
  is_nan (fold_left Math_max2 values acc) = false ->
  is_nan acc = false /\ forall v, In v values -> is_nan v = false.
Proof.
  induction values as [|x values IH]; intros acc H; simpl in *.
  - split; auto. intros v [].
  - destruct (IH _ H) as [H1 H2].
    destruct (Math_max2_not_nan _ _ H1) as [Ha Hx].
    split; auto. intros v [<-|Hv]; auto.
Qed.

Lemma Math_max2_ltb (a b c : float) :
  (a <? c)%float = true -> (b <? c)%float = true ->
  (Math_max2 a b <? c)%float = true.
Proof.
  intros Ha Hb.
  destruct (ltb_not_nan _ _ Ha) as [Na _], (ltb_not_nan _ _ Hb) as [Nb _].
  unfold Math_max2. rewrite Na, Nb. simpl orb. cbv iota.
  destruct (a <? b)%float; auto.
  destruct (b <? a)%float; auto.
  destruct (get_sign a); auto.
Qed.

Lemma fold_Math_max2_ltb (values : list float) (c : float) :
  forall acc,
  (acc <? c)%float = true ->
  (forall v, In v values -> (v <? c)%float = true) ->
  (fold_left Math_max2 values acc <? c)%float = true.
Proof.
  induction values as [|x values IH]; intros acc Ha Hv; simpl; auto.
  apply IH.
  - apply Math_max2_ltb; auto. apply Hv. now left.
  - intros v H. apply Hv. now right.
Qed.

(** The largest of the values is below a bound exactly when every value
    is. *)
Lemma Math_max_ltb (values : list float) (c : float) :
  (neg_infinity <? c)%float = true ->
  (Math_max values <? c)%float = true <->
  forall v, In v values -> (v <? c)%float = true.
Proof.
  intros Hc. unfold Math_max. split.
  - intros H v Hv.
    destruct (ltb_not_nan _ _ H) as [Hn _].
    destruct (fold_Math_max2_not_nan _ _ Hn) as [Hacc Hall].
    destruct (fold_Math_max2_bounds values neg_infinity Hacc Hall)
      as (_ & _ & Hb).
    apply leb_ltb_trans with (fold_left Math_max2 values neg_infinity); auto.
  - intros H. now apply fold_Math_max2_ltb.
Qed.

Lemma ltb_leb_trans (x y z : float) :
  (x <? y)%float = true -> (y <=? z)%float = true -> (x <? z)%float = true.
Proof.
  intros H1 H2.
  destruct (ltb_not_nan x y H1) as [Hx Hy].
  destruct (leb_not_nan y z H2) as [_ Hz].
  rewrite ltb_negb_leb by assumption.
  rewrite ltb_negb_leb in H1 by assumption.
  destruct (z <=? x)%float eqn:E; auto.
  rewrite (leb_trans y z x H2 E) in H1. discriminate.
Qed.

(** A number between 0 and 1 is finite. *)
Lemma unit_finite (v : float) :
  (0 <=? v)%float = true -> (v <=? 1)%float = true -> is_finite v = true.
Proof.
  intros H0 H1. rewrite leb_spec in H0, H1. rewrite is_finite_spec.
  destruct (Prim2SF v) as [s|[|]| |s m e]; try reflexivity;
    vm_compute in H0, H1; discriminate.
Qed.

End F64Order.

(** ** Keywords and symptom detection *)

Lemma Substring_refl (s : jsstring) : Substring s s.
Proof. exists [], []. now rewrite app_nil_r. Qed.

Lemma Substring_cons (w s : jsstring) (c : N) :
  Substring w s -> Substring w (c :: s).
Proof. intros (pre & post & ->). now exists (c :: pre), post. Qed.

Lemma Substring_app_l (w s pre : jsstring) :
  Substring w s -> Substring w (pre ++ s).
Proof.
  intros H. induction pre as [|c pre IH]; simpl; auto using Substring_cons.
Qed.

Lemma Substring_prefix (w post : jsstring) : Substring w (w ++ post).
Proof. now exists [], post. Qed.

(** A piece of [split_class] is a run of the text without separators. *)
Lemma split_class_pieces (sep : N -> bool) (s : jsstring) :
  forall cur skipping w,
  (skipping = true -> cur = []) ->
  (forall c, In c cur -> sep c = false) ->
  In w (split_class sep s cur skipping) ->
  (forall c, In c w -> sep c = false) /\ Substring w (rev cur ++ s).
Proof.
  induction s as [|c s IH]; intros cur skipping w Hskip Hcur Hin; simpl in Hin.
  - destruct Hin as [<-|[]]. rewrite app_nil_r. split.
    + intros c Hc. apply Hcur. now apply in_rev.
    + apply Substring_refl.
  - destruct (sep c) eqn:Ec.
    + destruct skipping.
      * rewrite (Hskip eq_refl) in *. simpl.
        destruct (IH [] true w (fun _ => eq_refl) Hcur Hin) as [H1 H2].
        split; auto. now apply Substring_cons.
      * destruct Hin as [<-|Hin].
        -- split.
           ++ intros x Hx. apply Hcur. now apply in_rev.
           ++ apply Substring_prefix.
        -- destruct (IH [] true w (fun _ => eq_refl) ltac:(intros ? []) Hin)
             as [H1 H2].
           split; auto. apply Substring_app_l. now apply Substring_cons.
    + destruct (IH (c :: cur) false w ltac:(discriminate)
                  ltac:(intros x [<-|Hx]; auto) Hin) as [H1 H2].
      split; auto. simpl in H2. now rewrite <- app_assoc in H2.
Qed.

(** X1. Every keyword of a description has more than three code units,
    holds no whitespace and no comma, and occurs in the description. *)
Theorem extractKeywords_sound (description w : jsstring) :
  In w (extractKeywords description) ->
  3 < List.length w /\
  (forall c, In c w -> isSeparator c = false) /\
  Substring w description.
Proof.
  unfold extractKeywords. intros H. apply filter_In in H as [H Hlen].
  apply Nat.ltb_lt in Hlen.
  destruct (split_class_pieces isSeparator description [] false w
              ltac:(discriminate) ltac:(intros ? []) H) as [H1 H2].
  auto.
Qed.

Lemma extractKeywords_sound_witness :
  3 < List.length (str "leaves") /\
  (forall c, In c (str "leaves") -> isSeparator c = false) /\
  Substring (str "leaves") (str "Orange pustules on leaves").
Proof.
  apply (extractKeywords_sound (str "Orange pustules on leaves") (str "leaves")).
  vm_compute. auto.
Defined.

Lemma array_from_set_In (arr : list jsstring) :
  forall seen x, In x (array_from_set seen arr) -> In x arr.
Proof.
  induction arr as [|a arr IH]; intros seen x; simpl; auto.
  destruct (array_includes seen a); simpl.
  - intros H. right. now apply (IH seen).
  - intros [<-|H]; auto. right. now apply (IH (a :: seen)).
Qed.

Lemma filter_twice {A} (f g : A -> bool) (l : list A) :
  filter f (filter g l) = filter (fun x => g x && f x) l.
Proof.
  induction l as [|a l IH]; simpl; auto.
  destruct (g a); simpl; [destruct (f a)|]; now rewrite IH.
Qed.

(** The candidates are rows of the [symptoms] table, kept in its order by
    some filter. *)
Lemma candidate_symptoms_filter (supabase : KnowledgeBase)
  (cropId : option jsstring) (candidates : list Symptom) :
  data (candidate_symptoms supabase cropId) = Some candidates ->
  exists keep, candidates = filter keep (table_rows (symptoms supabase)).
Proof.
  unfold candidate_symptoms.
  assert (Hq : forall keep l,
             data (select (symptoms supabase) keep) = Some l ->
             exists keep', l = filter keep' (table_rows (symptoms supabase))).
  { intros keep l. destruct (symptoms supabase); simpl; [|discriminate].
    intros [= <-]. now exists keep. }
  destruct (truthy cropId); [|apply Hq].
  destruct (data (select (diseases supabase) _)) as [[|d ds]|]; try apply Hq.
  destruct (data (select (symptom_disease_mapping supabase) _)) as [[|r rs]|];
    apply Hq.
Qed.

(** What the loop of [detectSymptoms] tests of a symptom. *)
Lemma detectSymptoms_In toLowerCase supabase message language cropId s :
  In s (detectSymptoms toLowerCase supabase message language cropId) <->
  (exists candidates,
     data (candidate_symptoms supabase cropId) = Some candidates /\
     In s candidates) /\
  exists keyword,
    In keyword
      (extractKeywords (localized language (description_hi s) (description_en s))) /\
    Substring (toLowerCase keyword) (toLowerCase message).
Proof.
  unfold detectSymptoms. rewrite filter_In, existsb_exists.
  split.
  - intros [Hin (k & Hk & Hinc)]. split.
    + destruct (data (candidate_symptoms supabase cropId)) as [l|];
        [eauto | contradiction].
    + exists k. split; auto. now apply JSFacts.includes_spec.
  - intros [(l & -> & Hin) (k & Hk & Hsub)]. split; auto.
    exists k. split; auto. now apply JSFacts.includes_spec.
Qed.

(** X2. A detected symptom is a row of the [symptoms] table one of whose
    keywords, in lower case, occurs in the lower-cased message; the
    detected symptoms come in table order; and a crop only narrows the
    detection: what is detected with a crop is detected without it. *)
Theorem detectSymptoms_sound (toLowerCase : jsstring -> jsstring)
  (supabase : KnowledgeBase) (message language : jsstring)
  (cropId : option jsstring) :
  (exists keep,
     detectSymptoms toLowerCase supabase message language cropId
     = filter keep (table_rows (symptoms supabase))) /\
  (forall s,
     In s (detectSymptoms toLowerCase supabase message language cropId) ->
     In s (table_rows (symptoms supabase)) /\
     In s (detectSymptoms toLowerCase supabase message language None) /\
     exists keyword,
       In keyword
         (extractKeywords
            (localized language (description_hi s) (description_en s))) /\
       Substring (toLowerCase keyword) (toLowerCase message)).
Proof.
  split.
  - unfold detectSymptoms.
    destruct (data (candidate_symptoms supabase cropId)) as [l|] eqn:E.
    + destruct (candidate_symptoms_filter _ _ _ E) as [keep ->].
      eexists. rewrite filter_twice. reflexivity.
    + exists (fun _ => false). simpl.
      induction (table_rows (symptoms supabase)); simpl; auto.
  - intros s Hs. apply detectSymptoms_In in Hs as [(l & E & Hin) Hk].
    destruct (candidate_symptoms_filter _ _ _ E) as [keep ->].
    apply filter_In in Hin as [Hin _].
    split; [exact Hin|]. split; [|exact Hk].
    apply detectSymptoms_In. split; [|exact Hk].
    exists (table_rows (symptoms supabase)). split; auto.
    unfold candidate_symptoms. simpl.
    destruct (symptoms supabase); simpl in *; [|contradiction].
    f_equal. clear. induction rows; simpl; congruence.
Qed.

Lemma detectSymptoms_sound_witness :
  In orange_pustules
    (detectSymptoms ascii_toLowerCase scenario_kb
       (str "Orange pustules and leaves curling") (str "en") None).
Proof.
  apply (proj2 (detectSymptoms_sound ascii_toLowerCase scenario_kb
                  (str "Orange pustules and leaves curling") (str "en")
                  (Some (str "crop-wheat"))) orange_pustules).
  left. reflexivity.
Defined.

(** X3. When the crop filter applies (the crop has diseases, and these
    have mapping rows), every detected symptom is linked by a mapping row
    to a disease of the crop. *)
Theorem detectSymptoms_of_crop (toLowerCase : jsstring -> jsstring)
  (supabase : KnowledgeBase) (message language crop : jsstring) (s : Symptom) :
  crop <> [] ->
  crop_diseases supabase crop <> [] ->
  crop_mappings supabase crop <> [] ->
  In s (detectSymptoms toLowerCase supabase message language (Some crop)) ->
  exists d m,
    In d (table_rows (diseases supabase)) /\
    disease_crop_id d = Some crop /\
    In m (table_rows (symptom_disease_mapping supabase)) /\
    mapping_disease_id m = disease_id d /\
    mapping_symptom_id m = symptom_id s.
Proof.
  intros Hcrop Hd Hm Hs.
  apply detectSymptoms_In in Hs as [(l & E & Hin) _].
  unfold candidate_symptoms in E. unfold crop_mappings in Hm.
  unfold crop_diseases in Hd, Hm. unfold table_rows.
  destruct crop as [|c0 crop]; [congruence|].
  change (truthy (Some (c0 :: crop))) with true in E. cbv iota in E.
  unfold jsstring in *.
  destruct (diseases supabase) as [drows|]; [|now contradiction Hd].
  cbn [select data] in E.
  destruct (filter (of_crop (Some (c0 :: crop))) drows) as [|d ds] eqn:Ed;
    [now contradiction Hd|].
  rewrite ?Ed in E, Hm.
  destruct (symptom_disease_mapping supabase) as [mrows|];
    [|now contradiction Hm].
  cbn [select data] in E.
  destruct (filter _ mrows) as [|r rs] eqn:Er; [now contradiction Hm|].
  rewrite ?Er in E.
  destruct (symptoms supabase) as [srows|]; cbn [select data] in E;
    [|discriminate].
  injection E as <-.
  assert (Hin' : In (symptom_id s)
                   (array_from_set [] (map mapping_symptom_id (r :: rs)))).
  { apply JSFacts.array_includes_In. apply filter_In in Hin. apply Hin. }
  clear Hin. rename Hin' into Hin. apply array_from_set_In in Hin.
  apply in_map_iff in Hin as (m & Em & Hmin).
  rewrite <- Er in Hmin. apply filter_In in Hmin as [Hmin Hinc].
  apply JSFacts.array_includes_In in Hinc.
  apply in_map_iff in Hinc as (d' & Ed' & Hd').
  rewrite <- Ed in Hd'. apply filter_In in Hd' as [Hd' Hc].
  exists d', m. repeat split; auto.
  unfold of_crop in Hc. destruct (disease_crop_id d'); [|discriminate].
  apply JSFacts.str_eqb_eq in Hc. now subst.
Qed.

Lemma detectSymptoms_of_crop_witness :
  exists d m,
    In d (table_rows (diseases scenario_kb)) /\
    disease_crop_id d = Some (str "crop-wheat") /\
    In m (table_rows (symptom_disease_mapping scenario_kb)) /\
    mapping_disease_id m = disease_id d /\
    mapping_symptom_id m = symptom_id orange_pustules.
Proof.
  apply (detectSymptoms_of_crop ascii_toLowerCase scenario_kb
           (str "Orange pustules and leaves curling") (str "en")
           (str "crop-wheat") orange_pustules);
    try discriminate.
  left. reflexivity.
Defined.

(** ** The scored diseases *)

Lemma keys_set_eq {V} (o : object V) (k : jsstring) (v : V) :
  keys (set o k v)
  = if array_includes (keys o) k then keys o else keys o ++ [k].
Proof.
  unfold keys, array_includes.
  induction o as [|[k0 v0] o IH]; simpl; auto.
  assert (Esym : str_eqb k k0 = str_eqb k0 k).
  { apply eq_true_iff_eq. rewrite !JSFacts.str_eqb_eq. split; congruence. }
  rewrite Esym.
  destruct (str_eqb k0 k) eqn:E; simpl; auto.
  rewrite IH. now destruct (existsb (str_eqb k) (map fst o)).
Qed.

Lemma keys_set_NoDup {V} (o : object V) (k : jsstring) (v : V) :
  NoDup (keys o) -> NoDup (keys (set o k v)).
Proof.
  intros H. rewrite keys_set_eq.
  destruct (array_includes (keys o) k) eqn:E; auto.
  apply NoDup_app; auto.
  - constructor; [intros [] | constructor].
  - intros x Hx [<-|[]]. apply JSFacts.array_includes_In in Hx. congruence.
Qed.

Lemma keys_fold_accumulate_NoDup (rows : list SymptomDiseaseMapping) :
  forall o, NoDup (keys o) -> NoDup (keys (fold_left accumulate rows o)).
Proof.
  induction rows as [|m rows IH]; intros o H; simpl; auto.
  apply IH. unfold accumulate. now apply keys_set_NoDup.
Qed.

Lemma keys_score_mappings_NoDup (rows : list SymptomDiseaseMapping) :
  NoDup (keys (score_mappings rows)).
Proof.
  unfold score_mappings. rewrite keys_clamp.
  apply keys_fold_accumulate_NoDup. constructor.
Qed.

(** The diseases [calculateDiseaseProbabilities] scores. *)
Lemma calculateDiseaseProbabilities_keys (supabase : KnowledgeBase)
  (detectedSymptoms : list jsstring) (d : jsstring) :
  In d (keys (calculateDiseaseProbabilities supabase detectedSymptoms)) <->
  exists s m,
    In s (table_rows (symptoms supabase)) /\
    In (symptom_code s) detectedSymptoms /\
    In m (table_rows (symptom_disease_mapping supabase)) /\
    mapping_symptom_id m = symptom_id s /\
    mapping_disease_id m = d.
Proof.
  unfold calculateDiseaseProbabilities.
  destruct detectedSymptoms as [|c0 cs].
  { simpl. split; [intros [] | intros (s & m & _ & [] & _)]. }
  change (Nat.eqb (List.length (c0 :: cs)) 0) with false. cbv iota.
  generalize (c0 :: cs). clear c0 cs. intros detectedSymptoms.
  destruct (symptoms supabase) as [srows|es]; simpl.
  2: { split; [intros [] | intros (s & m & [] & _)]. }
  destruct (filter _ srows) as [|s0 ss] eqn:Es.
  { simpl. split; [intros []|].
    intros (s & m & Hs & Hc & _).
    assert (Hin : In s (filter
              (fun s => array_includes detectedSymptoms (symptom_code s)) srows)).
    { apply filter_In. split; auto. now apply JSFacts.array_includes_In. }
    rewrite Es in Hin. contradiction. }
  rewrite <- Es. clear Es s0 ss.
  destruct (symptom_disease_mapping supabase) as [mrows|em]; simpl.
  2: { split; [intros [] | intros (s & m & _ & _ & [] & _)]. }
  rewrite keys_score_mappings. split.
  - intros (m & Hm & E). apply filter_In in Hm as [Hm Hinc].
    apply JSFacts.array_includes_In in Hinc.
    apply in_map_iff in Hinc as (s & Eid & Hs).
    apply filter_In in Hs as [Hs Hc].
    apply JSFacts.array_includes_In in Hc.
    exists s, m. auto.
  - intros (s & m & Hs & Hc & Hm & Eid & E).
    exists m. split; auto. apply filter_In. split; auto.
    apply JSFacts.array_includes_In. rewrite Eid. apply in_map.
    apply filter_In. split; auto. now apply JSFacts.array_includes_In.
Qed.

Lemma calculateDiseaseProbabilities_NoDup (supabase : KnowledgeBase)
  (detectedSymptoms : list jsstring) :
  NoDup (keys (calculateDiseaseProbabilities supabase detectedSymptoms)).
Proof.
  unfold calculateDiseaseProbabilities.
  destruct (Nat.eqb _ 0); [constructor|].
  destruct (error _); [constructor|].
  destruct (data _) as [[|s0 ss]|]; try constructor.
  destruct (error _); [constructor|].
  apply keys_score_mappings_NoDup.
Qed.

(** X4. A disease is scored exactly when a mapping row links it to a
    symptom of the catalog whose code is among the detected ones (no
    disease is, when a read fails), and the mapping holds one entry per
    disease. *)
Theorem scored_diseases (supabase : KnowledgeBase)
  (detectedSymptoms : list jsstring) :
  (forall d,
     In d (keys (calculateDiseaseProbabilities supabase detectedSymptoms)) <->
     exists s m,
       In s (table_rows (symptoms supabase)) /\
       In (symptom_code s) detectedSymptoms /\
       In m (table_rows (symptom_disease_mapping supabase)) /\
       mapping_symptom_id m = symptom_id s /\
       mapping_disease_id m = d) /\
  NoDup (keys (calculateDiseaseProbabilities supabase detectedSymptoms)).
Proof.
  split.
  - apply calculateDiseaseProbabilities_keys.
  - apply calculateDiseaseProbabilities_NoDup.
Qed.

(** ** The threshold of the follow-up question *)

(** The question of a turn, from what the turn starts with. *)
Lemma chat_orchestrator_nextQuestion toLowerCase supabase existing fresh_id now body :
  nextQuestion
    (fst (chat_orchestrator toLowerCase supabase existing fresh_id now body))
  = let evidence :=
      merge_symptoms (evidence_before existing)
        (detectSymptoms toLowerCase supabase (req_message body)
           (req_language body) (cropId body)) in
    let scores := calculateDiseaseProbabilities supabase evidence in
    if Nat.ltb 0 (List.length evidence)
       && Nat.ltb 0 (List.length (keys scores)) then
      if (Math_max (values scores) <? 0.75)%float then
        getNextQuestion supabase evidence
          (history_before existing
           ++ [{| role := user; content := req_message body; timestamp := now |}])
          (req_language body)
      else None
    else None.
Proof. destruct existing; reflexivity. Qed.

Lemma chat_orchestrator_reply toLowerCase supabase existing fresh_id now body :
  detectedSymptoms
    (fst (chat_orchestrator toLowerCase supabase existing fresh_id now body))
  = detected_symptoms
      (snd (chat_orchestrator toLowerCase supabase existing fresh_id now body)) /\
  probabilities
    (fst (chat_orchestrator toLowerCase supabase existing fresh_id now body))
  = calculateDiseaseProbabilities supabase
      (detected_symptoms
         (snd (chat_orchestrator toLowerCase supabase existing fresh_id now body))).
Proof. destruct existing; split; reflexivity. Qed.

Lemma In_values {V} (o : object V) (v : V) :
  In v (values o) <-> exists d, In (d, v) o.
Proof.
  unfold values. rewrite in_map_iff. split.
  - intros ([d v'] & E & H). simpl in E. subst. eauto.
  - intros (d & H). now exists (d, v).
Qed.

(** X5. A turn asks a follow-up question only on scores that are all
    strictly below 0.75. With some disease scored and every score below
    0.75 the answer is the one of [getNextQuestion] for the evidence and
    the history of the turn, whatever the evidence: the test on the
    evidence never decides. One score that is not below 0.75 is enough
    for no question to be asked. *)
Theorem question_threshold (toLowerCase : jsstring -> jsstring)
  (supabase : KnowledgeBase) (existing : option Conversation)
  (fresh_id now : jsstring) (body : ConversationRequest) :
  let turn :=
    fst (chat_orchestrator toLowerCase supabase existing fresh_id now body) in
  let history :=
    history_before existing
    ++ [{| role := user; content := req_message body; timestamp := now |}] in
  (nextQuestion turn <> None ->
   detectedSymptoms turn <> [] /\
   probabilities turn <> [] /\
   forall d v, In (d, v) (probabilities turn) -> (v <? 0.75)%float = true) /\
  (probabilities turn <> [] ->
   (forall d v, In (d, v) (probabilities turn) -> (v <? 0.75)%float = true) ->
   nextQuestion turn
   = getNextQuestion supabase (detectedSymptoms turn) history
       (req_language body)) /\
  (forall d v, In (d, v) (probabilities turn) -> (v <? 0.75)%float = false ->
   nextQuestion turn = None).
Proof.
  cbv zeta.
  destruct (chat_orchestrator_reply toLowerCase supabase existing fresh_id
              now body) as [-> ->].
  rewrite chat_orchestrator_nextQuestion, chat_orchestrator_evidence.
  cbv zeta.
  set (evidence := merge_symptoms _ _).
  set (scores := calculateDiseaseProbabilities supabase evidence).
  assert (Hmax : (Math_max (values scores) <? 0.75)%float = true <->
                  forall d v, In (d, v) scores -> (v <? 0.75)%float = true).
  { rewrite (F64Order.Math_max_ltb (values scores) 0.75%float eq_refl).
    split.
    - intros H d v Hin. apply H. apply In_values. eauto.
    - intros H v Hin. apply In_values in Hin as [d Hin]. eauto. }
  assert (Hev : scores <> [] -> evidence <> []).
  { intros Hs E. apply Hs. unfold scores. now rewrite E. }
  split; [|split].
  - destruct evidence as [|c0 cs] eqn:Ee.
    { intros H. now contradiction H. }
    destruct scores as [|e0 es] eqn:Es.
    { intros H. now contradiction H. }
    simpl andb. cbv iota.
    destruct (Math_max _ <? 0.75)%float eqn:Hm.
    + intros _. split; [discriminate|]. split; [discriminate|].
      now apply Hmax.
    + intros H. now contradiction H.
  - intros Hs Hall. specialize (Hev Hs).
    destruct evidence as [|c0 cs]; [congruence|].
    destruct scores as [|e0 es]; [congruence|].
    simpl andb. cbv iota.
    now rewrite (proj2 Hmax Hall).
  - intros d v Hin Hv.
    destruct (Nat.ltb 0 _ && Nat.ltb 0 _); auto.
    destruct (Math_max _ <? 0.75)%float eqn:Hm; auto.
    rewrite (proj1 Hmax eq_refl d v Hin) in Hv. discriminate.
Qed.

(** ** The history of a session *)

(** The reply of a turn, and the two messages the turn appends. *)
Lemma chat_orchestrator_response toLowerCase supabase existing fresh_id now body :
  let turn := chat_orchestrator toLowerCase supabase existing fresh_id now body in
  response (fst turn)
  = responseText supabase (req_language body)
      (List.length
         (history_before existing
          ++ [{| role := user; content := req_message body; timestamp := now |}]))
      (detectSymptoms toLowerCase supabase (req_message body)
         (req_language body) (cropId body))
      (probabilities (fst turn)) (nextQuestion (fst turn)).
Proof.
  destruct existing; reflexivity.
Qed.

Lemma chat_orchestrator_history toLowerCase supabase existing fresh_id now body :
  let turn := chat_orchestrator toLowerCase supabase existing fresh_id now body in
  conversation_history (snd turn)
  = history_before existing
    ++ [ {| role := user; content := req_message body; timestamp := now |};
         {| role := assistant; content := response (fst turn);
            timestamp := now |} ].
Proof.
  cbv zeta. unfold chat_orchestrator.
  cbn [fst snd response conversation_history].
  rewrite <- app_assoc. destruct existing; reflexivity.
Qed.

(** What a turn leaves as it found it. *)
Lemma chat_orchestrator_frame toLowerCase supabase conversation fresh_id now body :
  let saved :=
    snd (chat_orchestrator toLowerCase supabase (Some conversation)
           fresh_id now body) in
  conversation_id saved = conversation_id conversation /\
  session_id saved = session_id conversation /\
  conv_language saved = conv_language conversation /\
  crop_id saved = crop_id conversation /\
  status saved = status conversation.
Proof. cbv zeta. repeat split; reflexivity. Qed.

Lemma session_history toLowerCase supabase requests :
  forall existing,
  exists added,
    history_before (session toLowerCase supabase existing requests)
    = history_before existing ++ added /\
    List.length added = 2 * List.length requests.
Proof.
  induction requests as [|[[fresh_id now] body] requests IH]; intros existing;
    cbn [session].
  - exists []. now rewrite app_nil_r.
  - destruct (IH (Some (snd (chat_orchestrator toLowerCase supabase existing
                               fresh_id now body)))) as (added & E & Hlen).
    change (history_before (Some ?c)) with (conversation_history c) in E.
    rewrite chat_orchestrator_history in E. rewrite <- app_assoc in E.
    eexists. split; [exact E|].
    rewrite length_app, Hlen. cbn [List.length]. lia.
Qed.

Lemma session_frame toLowerCase supabase requests :
  forall conversation,
  exists saved,
    session toLowerCase supabase (Some conversation) requests = Some saved /\
    conversation_id saved = conversation_id conversation /\
    session_id saved = session_id conversation /\
    conv_language saved = conv_language conversation /\
    crop_id saved = crop_id conversation /\
    status saved = status conversation.
Proof.
  induction requests as [|[[fresh_id now] body] requests IH];
    intros conversation; cbn [session].
  - exists conversation. repeat split; reflexivity.
  - destruct (IH (snd (chat_orchestrator toLowerCase supabase
                         (Some conversation) fresh_id now body)))
      as (saved & E & H).
    exists saved. split; [exact E|].
    destruct (chat_orchestrator_frame toLowerCase supabase conversation
                fresh_id now body) as (E1 & E2 & E3 & E4 & E5).
    rewrite <- E1, <- E2, <- E3, <- E4, <- E5. exact H.
Qed.

(** X6. Over the turns of a session the row keeps its ids, its language,
    its crop and its status: [chat-orchestrator] goes on with a
    conversation that is completed or escalated and leaves it so. The
    history is only appended to, by two messages a turn, and the evidence
    is only appended to. *)
Theorem session_keeps_row (toLowerCase : jsstring -> jsstring)
  (supabase : KnowledgeBase) (conversation : Conversation)
  (requests : list (jsstring * jsstring * ConversationRequest)) :
  exists saved,
    session toLowerCase supabase (Some conversation) requests = Some saved /\
    conversation_id saved = conversation_id conversation /\
    session_id saved = session_id conversation /\
    conv_language saved = conv_language conversation /\
    crop_id saved = crop_id conversation /\
    status saved = status conversation /\
    (exists added,
       conversation_history saved = conversation_history conversation ++ added /\
       List.length added = 2 * List.length requests) /\
    (exists added,
       detected_symptoms saved = detected_symptoms conversation ++ added).
Proof.
  destruct (session_frame toLowerCase supabase requests conversation)
    as (saved & E & E1 & E2 & E3 & E4 & E5).
  exists saved. repeat (split; [assumption|]).
  destruct (session_history toLowerCase supabase requests (Some conversation))
    as (added & Ea & Hlen).
  destruct (session_evidence toLowerCase supabase requests (Some conversation))
    as [[added' Ee] _].
  rewrite E in Ea, Ee. simpl in Ea, Ee. eauto.
Qed.

(** ** Questions are not repeated *)

Lemma responseText_question supabase language history_length symptomMatches
  probabilities (q : NextQuestion) :
  exists pre,
    responseText supabase language history_length symptomMatches probabilities
      (Some q)
    = pre ++ question q.
Proof.
  unfold responseText. cbv zeta. eexists. rewrite app_assoc. reflexivity.
Qed.

(** A question [getNextQuestion] returns occurs in no assistant message
    of the history. *)
Lemma getNextQuestion_fresh (supabase : KnowledgeBase)
  (detectedSymptoms : list jsstring) (conversationHistory : list ChatMessage)
  (language : jsstring) (next : NextQuestion) :
  getNextQuestion supabase detectedSymptoms conversationHistory language
  = Some next ->
  forall m, In m conversationHistory -> role m = assistant ->
            ~ Substring (question next) (content m).
Proof.
  unfold getNextQuestion.
  pose proof (find_first
    (fun q => hasMatchingSymptom detectedSymptoms q
              && negb (alreadyAsked (askedQuestions conversationHistory) language q))
    (ordered_questions supabase)) as H.
  destruct (find _ (ordered_questions supabase)) as [q|]; [|discriminate].
  destruct H as (_ & _ & _ & Hq & _). intros [= <-].
  apply qualifies_spec in Hq. exact (proj2 Hq).
Qed.

(** X7. A question a turn asks is written into the history as the end of
    the assistant's message, and no later turn of the session asks a
    question whose text occurs in that message: the text of a later
    question is never the text of an earlier one. *)
Theorem question_not_repeated (toLowerCase : jsstring -> jsstring)
  (supabase : KnowledgeBase) (existing : option Conversation)
  (fresh_id now : jsstring) (body : ConversationRequest) (q : NextQuestion)
  (requests : list (jsstring * jsstring * ConversationRequest))
  (fresh_id' now' : jsstring) (body' : ConversationRequest)
  (q' : NextQuestion) :
  let turn := chat_orchestrator toLowerCase supabase existing fresh_id now body in
  let later :=
    chat_orchestrator toLowerCase supabase
      (session toLowerCase supabase (Some (snd turn)) requests)
      fresh_id' now' body' in
  nextQuestion (fst turn) = Some q ->
  nextQuestion (fst later) = Some q' ->
  (exists pre, response (fst turn) = pre ++ question q) /\
  ~ Substring (question q') (response (fst turn)) /\
  question q' <> question q.
Proof.
  cbv zeta. intros Hq Hq'.
  assert (Hr : exists pre,
            response (fst (chat_orchestrator toLowerCase supabase existing
                             fresh_id now body)) = pre ++ question q).
  { rewrite chat_orchestrator_response, Hq. apply responseText_question. }
  assert (Hfresh : ~ Substring (question q')
            (response (fst (chat_orchestrator toLowerCase supabase existing
                              fresh_id now body)))).
  { rewrite chat_orchestrator_nextQuestion in Hq'. cbv zeta in Hq'.
    destruct (Nat.ltb 0 _ && Nat.ltb 0 _); [|discriminate].
    destruct (Math_max _ <? 0.75)%float; [|discriminate].
    destruct (session_history toLowerCase supabase requests
                (Some (snd (chat_orchestrator toLowerCase supabase existing
                              fresh_id now body)))) as (added & Ea & _).
    cbn [history_before] in Ea.
    rewrite chat_orchestrator_history in Ea.
    apply (getNextQuestion_fresh _ _ _ _ _ Hq'
             {| role := assistant;
                content := response (fst (chat_orchestrator toLowerCase
                                            supabase existing fresh_id now body));
                timestamp := now |}); [|reflexivity].
    rewrite Ea. apply in_or_app. left. apply in_or_app. left.
    apply in_or_app. right. right. now left. }
  split; [exact Hr|]. split; [exact Hfresh|].
  intros E. apply Hfresh. destruct Hr as [pre ->]. rewrite E.
  apply Substring_app_l, Substring_refl.
Qed.

Lemma question_not_repeated_witness :
  (exists pre,
     str "I understand. Let's quickly figure this out." ++ nl2
     ++ str "I noticed: Orange pustules on leaves, Leaves curling upward" ++ nl2
     ++ str "Are the spots spreading to the stem?"
     = pre ++ question (asked_as (str "en") question_spread)) /\
  question (asked_as (str "en") question_sticky)
  <> question (asked_as (str "en") question_spread).
Proof.
  refine ((fun H => conj (proj1 H) (proj2 (proj2 H)))
    (question_not_repeated ascii_toLowerCase scenario_kb None
       (str "conv-1") (str "2026-02-27T01:06:15.000Z") scenario_turn
       (asked_as (str "en") question_spread)
       [] (str "conv-2") (str "2026-02-27T01:07:00.000Z")
       {| sessionId := str "session-1";
          req_message := str "Yes, they are";
          req_language := str "en";
          cropId := None |}
       (asked_as (str "en") question_sticky) _ _)).
  - vm_compute. reflexivity.
  - vm_compute. reflexivity.
Defined.

(** ** More of the advisory composer *)

(** What an answer of [.single()] holds. *)
Lemma single_In {Row} (t : Table Row) (keep : Row -> bool) (r : Row) :
  data (single t keep) = Some r -> In r (table_rows t) /\ keep r = true.
Proof.
  unfold single. destruct t as [rows|e]; simpl; [|discriminate].
  destruct (filter keep rows) as [|r0 [|r1 l]] eqn:E; simpl; try discriminate.
  intros [= ->]. apply filter_In. rewrite E. now left.
Qed.

(** The advisory [compose] answers with, read backwards. *)
Lemma compose_Composed (supabase : KnowledgeBase) (user_id : jsstring)
  (conversation : Conversation) (language : jsstring)
  (row : Advisory) (reply : AdvisoryReply) (conversation' : Conversation) :
  compose supabase user_id conversation language
    = (Composed row reply, conversation') ->
  exists rest disease,
    sortedDiseases (probabilities_of conversation)
      = (advisory_disease_id row, confidence_score row) :: rest /\
    data (single (diseases supabase)
            (fun d => str_eqb (disease_id d) (advisory_disease_id row)))
      = Some disease /\
    advisory_escalated row = shouldEscalate (confidence_score row) /\
    action_steps row
      = actionSteps (localized language (treatment_hi disease)
                       (treatment_en disease)) /\
    diseaseName reply = localized language (name_hi disease) (name_en disease) /\
    treatment reply
      = localized language (treatment_hi disease) (treatment_en disease) /\
    confidenceScore reply = confidence_score row /\
    reply_confidenceLevel reply
      = confidenceLevelText language (confidenceLevel (confidence_score row)) /\
    reply_actionSteps reply = action_steps row /\
    reply_escalated reply = advisory_escalated row /\
    status conversation'
      = (if advisory_escalated row then escalated else completed).
Proof.
  unfold compose. fold (probabilities_of conversation).
  destruct (Nat.eqb _ 0); [discriminate|].
  destruct (sortedDiseases (probabilities_of conversation))
    as [|[topDiseaseId confidence] rest] eqn:Es; [discriminate|].
  destruct (data (single _ _)) as [disease|] eqn:Ed; [|discriminate].
  intros [= <- <- <-]. cbn.
  exists rest, disease. repeat split; auto.
Qed.



(** Two requests for the advisory of one conversation leave two rows in
    [advisories]. *)
Example advisory_twice :
  map fst
    (advisories
       (snd (generate_advisory_writes scenario_kb (str "user-1") (str "en")
               (str "2026-02-27T01:10:00.000Z") (Some (str "adv-2"))
               (snd (generate_advisory_writes scenario_kb (str "user-1")
                       (str "en") (str "2026-02-27T01:09:00.000Z")
                       (Some (str "adv-1"))
                       {| stored_conversation :=
                            scenario_conversation [str "orange_pustules"]
                              (Some [(str "dis-wheat-rust", 0.45%float)]);
                          updated_at := str "2026-02-27T01:06:15.000Z";
                          advisories := [] |})))))
  = [str "adv-1"; str "adv-2"].
Proof. reflexivity. Qed.

(** X9. The band of the advisory and its escalation agree: an escalated
    advisory is in the band [Low], and an advisory in the band [Low] is
    escalated unless its score is not a number; the row is left
    [escalated] exactly with an escalated advisory. *)
Theorem level_and_escalation (supabase : KnowledgeBase) (user_id : jsstring)
  (conversation : Conversation) (language : jsstring)
  (row : Advisory) (reply : AdvisoryReply) (conversation' : Conversation) :
  compose supabase user_id conversation language
    = (Composed row reply, conversation') ->
  let score := confidence_score row in
  reply_confidenceLevel reply
    = confidenceLevelText language (confidenceLevel score) /\
  (advisory_escalated row = true -> confidenceLevel score = Low) /\
  (confidenceLevel score = Low ->
   advisory_escalated row = true \/ is_nan score = true) /\
  (status conversation' = escalated <-> advisory_escalated row = true) /\
  (status conversation' = completed <-> advisory_escalated row = false).
Proof.
  intros H. cbv zeta.
  destruct (compose_Composed _ _ _ _ _ _ _ H)
    as (rest & disease & _ & _ & He & _ & _ & _ & _ & Hl & _ & _ & Hs).
  rewrite Hs, He. unfold shouldEscalate, confidenceLevel.
  split; [exact Hl|]. split; [|split; [|split]].
  - intros Hlt. destruct (F64Order.ltb_not_nan _ _ Hlt) as [Hn _].
    rewrite F64Order.ltb_negb_leb in Hlt by auto.
    apply negb_true_iff in Hlt. rewrite Hlt.
    destruct (0.8 <=? confidence_score row)%float eqn:E8; auto.
    rewrite (F64Facts.leb_trans 0.6 0.8 (confidence_score row) eq_refl E8)
      in Hlt.
    discriminate.
  - destruct (0.8 <=? confidence_score row)%float; [discriminate|].
    destruct (0.6 <=? confidence_score row)%float eqn:E6; [discriminate|].
    intros _. destruct (is_nan (confidence_score row)) eqn:En; auto.
    left. rewrite F64Order.ltb_negb_leb by auto. now rewrite E6.
  - destruct (confidence_score row <? 0.6)%float; split; congruence.
  - destruct (confidence_score row <? 0.6)%float; split; congruence.
Qed.

Lemma level_and_escalation_witness :
  confidenceLevel 0.45 = Low.
Proof.
  refine (proj1 (proj2
    (level_and_escalation scenario_kb (str "user-1")
       (scenario_conversation [str "orange_pustules"]
          (Some [(str "dis-wheat-rust", 0.45%float)]))
       (str "en") _ _ _ eq_refl)) eq_refl).
Defined.

(** ** Equal scores *)

(** The sort is stable: the entry that heads the sorted scores stands in
    the mapping behind smaller scores only. *)
Lemma sortedDiseases_head_first (p : object float) :
  finite_scores p ->
  forall d s rest, sortedDiseases p = (d, s) :: rest ->
  exists pre post,
    p = pre ++ (d, s) :: post /\
    forall d' s', In (d', s') pre -> (s' <? s)%float = true.
Proof.
  unfold sortedDiseases, entries, sort.
  induction p as [|[k v] p IH]; intros Hfin d s rest E.
  - discriminate.
  - assert (Hfin' : finite_scores p).
    { intros a b H. apply (Hfin a b). now right. }
    assert (Hv : is_finite v = true) by (apply (Hfin k); now left).
    simpl in E.
    pose proof (JSFacts.sort_perm (fun a b => (snd b - snd a)%float) p) as Hperm.
    unfold sort in Hperm.
    destruct (fold_right _ [] p) as [|[k1 v1] l] eqn:El.
    + simpl in E. injection E as <- <- <-.
      exists [], p. split; auto.
    + assert (Hv1 : is_finite v1 = true).
      { apply (Hfin' k1). apply (Permutation_in _ Hperm). now left. }
      destruct (IH Hfin' k1 v1 l eq_refl) as (pre & post & -> & Hpre).
      simpl in E. rewrite F64Facts.sub_pos_ltb in E by assumption.
      destruct (v <? v1)%float eqn:Hlt.
      * injection E as <- <- <-.
        exists ((k, v) :: pre), post. split; auto.
        intros d' s' [[= <- <-]|Hin]; eauto.
      * injection E as <- <- <-.
        exists [], (pre ++ (k1, v1) :: post). split; auto.
Qed.

(** X10. Among diseases of equal score the advisory goes to the one that
    was scored first: the disease of the advisory is the first entry of
    [current_probabilities] that holds the largest score. *)
Theorem top_disease_tie_break (supabase : KnowledgeBase) (user_id : jsstring)
  (conversation : Conversation) (language : jsstring)
  (row : Advisory) (reply : AdvisoryReply) (conversation' : Conversation) :
  finite_scores (probabilities_of conversation) ->
  compose supabase user_id conversation language
    = (Composed row reply, conversation') ->
  exists pre post,
    probabilities_of conversation
    = pre ++ (advisory_disease_id row, confidence_score row) :: post /\
    (forall d s, In (d, s) pre -> (s <? confidence_score row)%float = true) /\
    (forall d s, In (d, s) post -> (s <=? confidence_score row)%float = true).
Proof.
  intros Hfin H.
  destruct (compose_Composed _ _ _ _ _ _ _ H) as (rest & disease & Es & _).
  destruct (sortedDiseases_head_first _ Hfin _ _ _ Es) as (pre & post & E & Hpre).
  exists pre, post. split; [exact E|]. split; [exact Hpre|].
  intros d s Hin. apply (sortedDiseases_head_max _ Hfin _ _ _ Es d s).
  rewrite E. apply in_or_app. right. now right.
Qed.

Lemma top_disease_tie_break_witness :
  exists pre post,
    [(str "dis-leaf-blight", 0.3%float); (str "dis-wheat-rust", 0.85%float);
     (str "dis-other", 0.85%float)]
    = pre ++ (str "dis-wheat-rust", 0.85%float) :: post /\
    (forall d s, In (d, s) pre -> (s <? 0.85)%float = true) /\
    (forall d s, In (d, s) post -> (s <=? 0.85)%float = true).
Proof.
  refine (top_disease_tie_break scenario_kb (str "user-1")
            (scenario_conversation [str "orange_pustules"]
               (Some [(str "dis-leaf-blight", 0.3%float);
                      (str "dis-wheat-rust", 0.85%float);
                      (str "dis-other", 0.85%float)]))
            (str "en") _ _ _ _ eq_refl).
  intros d s [[= <- <-]|[[= <- <-]|[[= <- <-]|[]]]]; reflexivity.
Defined.

(** ** From a turn to the advisory *)

Lemma calculateDiseaseProbabilities_unit (supabase : KnowledgeBase)
  (detectedSymptoms : list jsstring) :
  weights_in_unit_interval supabase ->
  forall d v,
    In (d, v) (calculateDiseaseProbabilities supabase detectedSymptoms) ->
    (0 <=? v)%float = true /\ (v <=? 1)%float = true.
Proof.
  unfold weights_in_unit_interval, calculateDiseaseProbabilities.
  intros Hw d v.
  destruct (Nat.eqb _ 0); [intros []|].
  destruct (error (select (symptoms supabase) _)); [intros []|].
  destruct (data (select (symptoms supabase) _)) as [[|s0 ss]|]; try (intros []).
  destruct (symptom_disease_mapping supabase) as [rows|e]; simpl; [|intros []].
  apply score_mappings_unit.
  intros m Hm. apply filter_In in Hm as [Hm _]. now apply Hw.
Qed.

Lemma calculateDiseaseProbabilities_finite (supabase : KnowledgeBase)
  (detectedSymptoms : list jsstring) :
  weights_in_unit_interval supabase ->
  finite_scores (calculateDiseaseProbabilities supabase detectedSymptoms).
Proof.
  intros Hw d v Hin.
  destruct (calculateDiseaseProbabilities_unit _ _ Hw d v Hin).
  now apply F64Order.unit_finite.
Qed.

Lemma chat_orchestrator_probabilities_of toLowerCase supabase existing fresh_id now body :
  probabilities_of
    (snd (chat_orchestrator toLowerCase supabase existing fresh_id now body))
  = calculateDiseaseProbabilities supabase
      (detected_symptoms
         (snd (chat_orchestrator toLowerCase supabase existing fresh_id now body))).
Proof. unfold probabilities_of. now rewrite chat_orchestrator_scores. Qed.

Lemma In_keys {V} (o : object V) (k : jsstring) (v : V) :
  In (k, v) o -> In k (keys o).
Proof. intros H. unfold keys. now apply (in_map fst) in H. Qed.

(** X11. The advisory composed for the row a turn saved, with weights in
    [[0, 1]]: its disease is one that a mapping row links to a symptom of
    the catalog whose code is in the evidence of the row, its confidence
    lies in [[0, 1]] and is the largest of the scores of the evidence, and
    the name and the treatment it gives are those of the row of the
    [diseases] table with the id of that disease. *)
Theorem advisory_of_turn (toLowerCase : jsstring -> jsstring)
  (supabase : KnowledgeBase) (existing : option Conversation)
  (fresh_id now : jsstring) (body : ConversationRequest)
  (user_id language : jsstring)
  (row : Advisory) (reply : AdvisoryReply) (conversation' : Conversation) :
  weights_in_unit_interval supabase ->
  let saved :=
    snd (chat_orchestrator toLowerCase supabase existing fresh_id now body) in
  compose supabase user_id saved language
    = (Composed row reply, conversation') ->
  (exists s m,
     In s (table_rows (symptoms supabase)) /\
     In (symptom_code s) (detected_symptoms saved) /\
     In m (table_rows (symptom_disease_mapping supabase)) /\
     mapping_symptom_id m = symptom_id s /\
     mapping_disease_id m = advisory_disease_id row) /\
  (0 <=? confidence_score row)%float = true /\
  (confidence_score row <=? 1)%float = true /\
  (forall d v,
     In (d, v) (calculateDiseaseProbabilities supabase (detected_symptoms saved)) ->
     (v <=? confidence_score row)%float = true) /\
  (exists disease,
     In disease (table_rows (diseases supabase)) /\
     disease_id disease = advisory_disease_id row /\
     diseaseName reply = localized language (name_hi disease) (name_en disease) /\
     treatment reply
       = localized language (treatment_hi disease) (treatment_en disease) /\
     action_steps row = actionSteps (treatment reply)).
Proof.
  intros Hw. cbv zeta. intros H.
  destruct (compose_Composed _ _ _ _ _ _ _ H)
    as (rest & disease & Es & Ed & _ & Ha & Hn & Ht & _).
  rewrite chat_orchestrator_probabilities_of in Es.
  set (saved := snd (chat_orchestrator toLowerCase supabase existing fresh_id
                       now body)) in *.
  assert (Hin : In (advisory_disease_id row, confidence_score row)
                  (calculateDiseaseProbabilities supabase
                     (detected_symptoms saved))).
  { apply (Permutation_in _ (sortedDiseases_perm _)). rewrite Es. now left. }
  destruct (calculateDiseaseProbabilities_unit _ _ Hw _ _ Hin) as [H0 H1].
  split; [|split; [|split; [|split]]]; auto.
  - apply calculateDiseaseProbabilities_keys. now apply In_keys in Hin.
  - intros d v Hv.
    apply (sortedDiseases_head_max _
             (calculateDiseaseProbabilities_finite _ _ Hw) _ _ _ Es d v Hv).
  - apply single_In in Ed as [Hd Hid]. apply JSFacts.str_eqb_eq in Hid.
    exists disease. rewrite Ht. auto.
Qed.

Lemma advisory_of_turn_witness :
  exists s m,
    In s (table_rows (symptoms scenario_kb)) /\
    In (symptom_code s) [str "orange_pustules"; str "leaf_curl"] /\
    In m (table_rows (symptom_disease_mapping scenario_kb)) /\
    mapping_symptom_id m = symptom_id s /\
    mapping_disease_id m = str "dis-wheat-rust".
Proof.
  refine (proj1
    (advisory_of_turn ascii_toLowerCase scenario_kb None (str "conv-1")
       (str "2026-02-27T01:06:15.000Z") scenario_turn (str "user-1") (str "en")
       _ _ _ _ eq_refl)).
  intros m [<-|[<-|[<-|[]]]]; split; reflexivity.
Defined.

(** ** A turn that is confident *)

(** X12. With weights in [[0, 1]], a turn with a score of 0.75 or more
    asks no question. When the row of the top disease can be read its
    reply ends with the announcement of a recommendation, and the
    advisory composed for the row it saves is not escalated: the row is
    left [completed]. *)
Theorem confident_turn (toLowerCase : jsstring -> jsstring)
  (supabase : KnowledgeBase) (existing : option Conversation)
  (fresh_id now : jsstring) (body : ConversationRequest)
  (d : jsstring) (v : float) :
  weights_in_unit_interval supabase ->
  let turn := chat_orchestrator toLowerCase supabase existing fresh_id now body in
  In (d, v) (probabilities (fst turn)) ->
  (0.75 <=? v)%float = true ->
  nextQuestion (fst turn) = None /\
  (top_disease supabase (probabilities (fst turn)) <> None ->
   (exists pre,
      response (fst turn)
      = pre ++ localized (req_language body) identified_hi
                 (nl2 ++ str "I think I've identified it. Let me prepare a recommendation for you.")) /\
   forall user_id language,
     exists row reply conversation',
       compose supabase user_id (snd turn) language
         = (Composed row reply, conversation') /\
       advisory_escalated row = false /\
       status conversation' = completed).
Proof.
  intros Hw. cbv zeta. intros Hin Hv.
  assert (Hnone : nextQuestion
            (fst (chat_orchestrator toLowerCase supabase existing fresh_id
                    now body)) = None).
  { rewrite chat_orchestrator_nextQuestion. cbv zeta.
    destruct (chat_orchestrator_reply toLowerCase supabase existing fresh_id
                now body) as [_ Ep].
    rewrite Ep, chat_orchestrator_evidence in Hin.
    destruct (Nat.ltb 0 _ && Nat.ltb 0 _); auto.
    destruct (Math_max _ <? 0.75)%float eqn:Hm; auto.
    pose proof (proj1 (F64Order.Math_max_ltb _ 0.75%float eq_refl) Hm v) as Hlt.
    rewrite (F64Order.leb_ltb_false _ _ Hv) in Hlt.
    assert (false = true); [|discriminate].
    apply Hlt. apply In_values. eauto. }
  split; [exact Hnone|].
  destruct (chat_orchestrator_reply toLowerCase supabase existing fresh_id
              now body) as [_ Ep].
  rewrite chat_orchestrator_response. cbv zeta. rewrite Hnone.
  rewrite Ep in *.
  set (turn := chat_orchestrator toLowerCase supabase existing fresh_id now body)
    in *.
  set (p := calculateDiseaseProbabilities supabase (detected_symptoms (snd turn)))
    in *.
  assert (Hfin : finite_scores p)
    by now apply calculateDiseaseProbabilities_finite.
  unfold top_disease.
  destruct (sortedDiseases p) as [|[topDiseaseId confidence] rest] eqn:Es;
    [congruence|].
  destruct (data (single _ _)) as [disease|] eqn:Ed; [|congruence].
  intros _.
  assert (Htop : (0.75 <=? confidence)%float = true).
  { apply F64Facts.leb_trans with v; auto.
    apply (sortedDiseases_head_max _ Hfin _ _ _ Es d v Hin). }
  assert (H6 : (0.6 <=? confidence)%float = true).
  { now apply F64Facts.leb_trans with 0.75%float. }
  split.
  - unfold responseText. cbv zeta. rewrite Es, Ed.
    rewrite (F64Order.ltb_leb_trans 0.6 0.75 confidence eq_refl Htop).
    eexists. reflexivity.
  - intros user_id language. unfold compose.
    fold (probabilities_of (snd turn)). unfold turn.
    rewrite chat_orchestrator_probabilities_of. fold turn. fold p.
    destruct p as [|e0 es] eqn:Ep'; [contradiction|].
    change (Nat.eqb (List.length (keys (e0 :: es))) 0) with false. cbv iota.
    rewrite Es, Ed. do 3 eexists. split; [reflexivity|].
    cbn [advisory_escalated status]. unfold shouldEscalate.
    rewrite (F64Order.leb_ltb_false _ _ H6). split; reflexivity.
Qed.

Lemma confident_turn_witness :
  nextQuestion
    (fst (chat_orchestrator ascii_toLowerCase scenario_kb None (str "conv-1")
            (str "2026-02-27T01:06:15.000Z")
            {| sessionId := str "session-1";
               req_message := str "Orange pustules and rust coloured spots";
               req_language := str "en";
               cropId := None |}))
  = None.
Proof.
  refine (proj1
    (confident_turn ascii_toLowerCase scenario_kb None (str "conv-1")
       (str "2026-02-27T01:06:15.000Z")
       {| sessionId := str "session-1";
          req_message := str "Orange pustules and rust coloured spots";
          req_language := str "en";
          cropId := None |}
       (str "dis-wheat-rust") 0.8500000000000001%float _ _ eq_refl)).
  - intros m [<-|[<-|[<-|[]]]]; split; reflexivity.
  - vm_compute. left. reflexivity.
Defined.

(** ** Where the evidence comes from *)

Lemma push_symptom_In (l : list jsstring) (c x : jsstring) :
  In x (push_symptom l c) <-> In x l \/ x = c.
Proof.
  unfold push_symptom. destruct (array_includes l c) eqn:E.
  - apply JSFacts.array_includes_In in E.
    split; [auto | intros [H| ->]; auto].
  - rewrite in_app_iff. simpl. intuition (subst; auto).
Qed.

Lemma fold_push_In (codes : list jsstring) :
  forall l x, In x (fold_left push_symptom codes l) <-> In x l \/ In x codes.
Proof.
  induction codes as [|c codes IH]; intros l x; simpl.
  - tauto.
  - rewrite IH, push_symptom_In. intuition (subst; auto).
Qed.

Lemma chat_orchestrator_evidence_In toLowerCase supabase existing fresh_id now body c :
  In c (detected_symptoms
          (snd (chat_orchestrator toLowerCase supabase existing fresh_id now body)))
  <-> In c (evidence_before existing) \/
      exists s,
        In s (detectSymptoms toLowerCase supabase (req_message body)
                (req_language body) (cropId body)) /\
        symptom_code s = c.
Proof.
  rewrite chat_orchestrator_evidence. unfold merge_symptoms.
  rewrite fold_push_In, in_map_iff.
  split; (intros [H|(s & H1 & H2)]; [now left|right; eauto]).
Qed.

Lemma detectSymptoms_rows toLowerCase supabase message language cropId s :
  In s (detectSymptoms toLowerCase supabase message language cropId) ->
  In s (table_rows (symptoms supabase)).
Proof.
  intros H. apply detectSymptoms_In in H as [(candidates & E & Hin) _].
  apply candidate_symptoms_filter in E as [keep ->].
  now apply filter_In in Hin.
Qed.

Lemma session_evidence_rows toLowerCase supabase requests :
  forall existing c,
  In c (evidence_before (session toLowerCase supabase existing requests)) ->
  In c (evidence_before existing) \/
  exists s, In s (table_rows (symptoms supabase)) /\ symptom_code s = c.
Proof.
  induction requests as [|[[fresh_id now] body] requests IH];
    intros existing c; cbn [session]; auto.
  intros H. apply IH in H as [H|H]; auto.
  cbn [evidence_before] in H.
  apply chat_orchestrator_evidence_In in H as [H|(s & Hs & E)]; auto.
  right. exists s. split; auto. now apply detectSymptoms_rows in Hs.
Qed.

(** X13. The evidence a turn saves holds the codes it found in the row
    and the codes of the symptoms it detected, and no other. Whatever a
    session adds to the evidence is the code of a row of the [symptoms]
    table: the evidence of a session that began without a row holds
    catalog codes only. *)
Theorem evidence_of_session (toLowerCase : jsstring -> jsstring)
  (supabase : KnowledgeBase) :
  (forall existing fresh_id now body c,
     In c (detected_symptoms
             (snd (chat_orchestrator toLowerCase supabase existing fresh_id
                     now body)))
     <-> In c (evidence_before existing) \/
         exists s,
           In s (detectSymptoms toLowerCase supabase (req_message body)
                   (req_language body) (cropId body)) /\
           symptom_code s = c) /\
  (forall existing requests c,
     In c (evidence_before (session toLowerCase supabase existing requests)) ->
     In c (evidence_before existing) \/
     exists s, In s (table_rows (symptoms supabase)) /\ symptom_code s = c) /\
  (forall requests c,
     In c (evidence_before (session toLowerCase supabase None requests)) ->
     exists s, In s (table_rows (symptoms supabase)) /\ symptom_code s = c).
Proof.
  split; [|split].
  - intros. apply chat_orchestrator_evidence_In.
  - intros existing requests c. apply session_evidence_rows.
  - intros requests c H.
    apply session_evidence_rows in H as [[]|H]. exact H.
Qed.

(** ** The shape of the action steps *)

Lemma trimStart_suffix (s : jsstring) :
  exists pre, s = pre ++ trimStart s.
Proof.
  induction s as [|c s [pre IH]]; simpl.
  - now exists [].
  - destruct (isWhiteSpace c).
    + exists (c :: pre). simpl. now rewrite <- IH.
    + now exists [].
Qed.

Lemma trimStart_head (s : jsstring) (c : N) (r : jsstring) :
  trimStart s = c :: r -> isWhiteSpace c = false.
Proof.
  induction s as [|x s IH]; simpl; [discriminate|].
  destruct (isWhiteSpace x) eqn:E; auto.
  intros [= <- <-]. exact E.
Qed.

Lemma trimStart_fixed (s : jsstring) :
  match s with [] => True | c :: _ => isWhiteSpace c = false end ->
  trimStart s = s.
Proof. destruct s as [|c s]; simpl; auto. now intros ->. Qed.

Lemma trimStart_idem (s : jsstring) : trimStart (trimStart s) = trimStart s.
Proof.
  apply trimStart_fixed. destruct (trimStart s) as [|c r] eqn:E; auto.
  now apply trimStart_head in E.
Qed.

(** [trim] leaves a text it has produced as it is, and what it produces
    occurs in its argument. *)
Lemma trim_idem (s : jsstring) : trim (trim s) = trim s.
Proof.
  unfold trim, trimEnd.
  set (t := trimStart s).
  destruct (trimStart_suffix (rev t)) as [pre E].
  set (u := trimStart (rev t)) in *.
  assert (Hu : trimStart u = u) by apply trimStart_idem.
  assert (Hr : trimStart (rev u) = rev u).
  { apply trimStart_fixed. destruct (rev u) as [|c r] eqn:Er; auto.
    apply (f_equal (@rev N)) in E. rewrite rev_involutive, rev_app_distr in E.
    rewrite Er in E. simpl in E.
    unfold t in E. now apply trimStart_head in E. }
  rewrite Hr, rev_involutive, Hu. reflexivity.
Qed.

Lemma trim_Substring (s : jsstring) : Substring (trim s) s.
Proof.
  unfold trim, trimEnd.
  destruct (trimStart_suffix s) as [pre E].
  destruct (trimStart_suffix (rev (trimStart s))) as [pre' E'].
  apply (f_equal (@rev N)) in E'. rewrite rev_involutive, rev_app_distr in E'.
  exists pre, (rev pre'). now rewrite <- E'.
Qed.

Lemma Substring_trans (a b c : jsstring) :
  Substring a b -> Substring b c -> Substring a c.
Proof.
  intros (p1 & q1 & ->) (p2 & q2 & ->).
  exists (p2 ++ p1), (q1 ++ q2). now rewrite <- !app_assoc.
Qed.

(** A fragment of the split is a piece of the text. *)
Lemma split_digits_dot_pieces (s : jsstring) :
  forall cur skip w,
  (skip <> 0 -> cur = []) ->
  In w (split_digits_dot s cur skip) -> Substring w (rev cur ++ s).
Proof.
  induction s as [|c s IH]; intros cur skip w Hskip Hin.
  - destruct Hin as [<-|[]]. rewrite app_nil_r. apply Substring_refl.
  - cbn [split_digits_dot] in Hin. destruct skip as [|k].
    + destruct (digits_dot (c :: s) 0) as [n|].
      * destruct Hin as [<-|Hin]; [apply Substring_prefix|].
        apply Substring_app_l, Substring_cons.
        apply (IH [] (Nat.pred n) w (fun _ => eq_refl) Hin).
      * apply (IH (c :: cur) 0 w) in Hin; [|congruence].
        simpl in Hin. now rewrite <- app_assoc in Hin.
    + rewrite (Hskip ltac:(discriminate)) in *. simpl.
      apply Substring_cons.
      apply (IH [] k w (fun _ => eq_refl) Hin).
Qed.

Lemma digits_dot_no_dot (s : jsstring) :
  (forall c, In c s -> c <> 46%N) -> forall n, digits_dot s n = None.
Proof.
  induction s as [|c s IH]; intros H n; simpl; auto.
  destruct (isDigit c).
  - apply IH. intros x Hx. apply H. now right.
  - destruct (N.eqb_spec c 46); auto.
    exfalso. apply (H c); auto. now left.
Qed.

Lemma split_digits_dot_no_dot (s : jsstring) :
  (forall c, In c s -> c <> 46%N) ->
  forall cur, split_digits_dot s cur 0 = [rev cur ++ s].
Proof.
  induction s as [|c s IH]; intros H cur.
  - simpl. now rewrite app_nil_r.
  - cbn [split_digits_dot]. rewrite (digits_dot_no_dot (c :: s) H).
    rewrite IH by (intros x Hx; apply H; now right).
    simpl. now rewrite <- app_assoc.
Qed.

(** X14. The action of a step carries no white space at its ends and is
    a piece of the treatment text; a treatment text without a dot is one
    step, its trimmed text, or no step when it is blank. *)
Theorem action_steps_shape :
  (forall treatment a,
     In a (actionSteps treatment) ->
     trim (action a) = action a /\ Substring (action a) treatment) /\
  (forall treatment,
     (forall c, In c treatment -> c <> 46%N) ->
     actionSteps treatment
     = if Nat.eqb (List.length (trim treatment)) 0 then []
       else [{| step := 1; action := trim treatment |}]).
Proof.
  split.
  - intros treatment a H.
    apply (in_map action) in H. unfold actionSteps in H.
    rewrite number_steps_actions in H.
    apply in_map_iff in H as (fragment & <- & Hf).
    apply filter_In in Hf as [Hf _].
    split; [apply trim_idem|].
    apply Substring_trans with fragment; [apply trim_Substring|].
    apply (split_digits_dot_pieces treatment [] 0 fragment); auto.
  - intros treatment H. unfold actionSteps, treatmentSteps.
    rewrite (split_digits_dot_no_dot treatment H []). simpl.
    destruct (List.length (trim treatment)); reflexivity.
Qed.

(** ** A turn without evidence *)

(** X15. A turn that finds no evidence in the row and detects no symptom
    saves no evidence and no score and asks no question. On the first
    message of a conversation its reply is the greeting and the request
    to describe the problem; on any later message its reply is the empty
    text. *)
Theorem reply_without_evidence (toLowerCase : jsstring -> jsstring)
  (supabase : KnowledgeBase) (existing : option Conversation)
  (fresh_id now : jsstring) (body : ConversationRequest) :
  evidence_before existing = [] ->
  detectSymptoms toLowerCase supabase (req_message body) (req_language body)
    (cropId body) = [] ->
  let turn := chat_orchestrator toLowerCase supabase existing fresh_id now body in
  detected_symptoms (snd turn) = [] /\
  current_probabilities (snd turn) = Some [] /\
  nextQuestion (fst turn) = None /\
  response (fst turn)
  = match history_before existing with
    | [] =>
        localized (req_language body) greeting_hi
          (str "I understand. Let's quickly figure this out.")
        ++ localized (req_language body) tell_me_hi
             (nl2 ++ str "Please tell me what problem you are seeing?")
    | _ :: _ => []
    end.
Proof.
  intros He Hd. cbv zeta.
  assert (Hev : detected_symptoms
                  (snd (chat_orchestrator toLowerCase supabase existing
                          fresh_id now body)) = []).
  { rewrite chat_orchestrator_evidence, He, Hd. reflexivity. }
  assert (Hq : nextQuestion
                 (fst (chat_orchestrator toLowerCase supabase existing
                         fresh_id now body)) = None).
  { rewrite chat_orchestrator_nextQuestion, He, Hd. reflexivity. }
  split; [exact Hev|]. split; [|split; [exact Hq|]].
  - rewrite chat_orchestrator_scores, Hev. reflexivity.
  - rewrite chat_orchestrator_response. cbv zeta. rewrite Hq, Hd.
    destruct (chat_orchestrator_reply toLowerCase supabase existing fresh_id
                now body) as [_ ->].
    rewrite Hev. unfold responseText. cbv zeta.
    change (sortedDiseases (calculateDiseaseProbabilities supabase []))
      with (@nil (jsstring * float)).
    cbv iota.
    destruct (history_before existing) as [|m h]; [reflexivity|].
    cbn [app List.length]. rewrite length_app. cbn [List.length].
    rewrite Nat.add_1_r. reflexivity.
Qed.

Lemma reply_without_evidence_witness :
  response
    (fst (chat_orchestrator ascii_toLowerCase scenario_kb
            (Some {| conversation_id := str "conv-1";
                     session_id := str "session-1";
                     conv_language := str "en";
                     crop_id := None;
                     conversation_history := scenario_history;
                     detected_symptoms := [];
                     current_probabilities := Some [];
                     status := active |})
            (str "conv-2") (str "2026-02-27T01:08:00.000Z")
            {| sessionId := str "session-1";
               req_message := str "Hello";
               req_language := str "en";
               cropId := None |}))
  = [].
Proof.
  refine (proj2 (proj2 (proj2
    (reply_without_evidence ascii_toLowerCase scenario_kb
       (Some {| conversation_id := str "conv-1";
                session_id := str "session-1";
                conv_language := str "en";
                crop_id := None;
                conversation_history := scenario_history;
                detected_symptoms := [];
                current_probabilities := Some [];
                status := active |})
       (str "conv-2") (str "2026-02-27T01:08:00.000Z")
       {| sessionId := str "session-1";
          req_message := str "Hello";
          req_language := str "en";
          cropId := None |}
       eq_refl eq_refl)))).
Defined.

(** ** Scored diseases over a session *)

(** No evidence is lost over the turns of a session, whatever the
    reference tables answer. *)
Lemma turns_evidence toLowerCase requests :
  forall existing c,
  In c (evidence_before existing) ->
  In c (evidence_before (turns toLowerCase existing requests)).
Proof.
  induction requests as [|[[[supabase fresh_id] now] body] requests IH];
    intros existing c H; cbn [turns]; auto.
  apply IH. cbn [evidence_before].
  apply chat_orchestrator_evidence_In. now left.
Qed.

Lemma calculateDiseaseProbabilities_unavailable (supabase : KnowledgeBase)
  (e : PostgrestError) (detectedSymptoms : list jsstring) :
  symptoms supabase = Unavailable e \/
  symptom_disease_mapping supabase = Unavailable e ->
  calculateDiseaseProbabilities supabase detectedSymptoms = [].
Proof.
  intros H. unfold calculateDiseaseProbabilities.
  destruct (Nat.eqb _ 0); auto.
  destruct H as [-> | ->]; simpl; auto.
  destruct (symptoms supabase) as [rows|e']; simpl; auto.
  destruct (filter _ rows); auto.
Qed.

(** X16. A disease that is scored in the row a turn saves is scored
    again in the row a later turn saves, whatever happened in the turns
    between, when the later turn reads the rows of the [symptoms] and
    mapping tables that the first one read (and maybe more): the evidence
    only grows, and every turn scores the evidence anew. A later turn
    whose read of one of the two tables fails saves no score at all: the
    disease is scored no longer. *)
Theorem scored_diseases_persist (toLowerCase : jsstring -> jsstring)
  (supabase : KnowledgeBase) (existing : option Conversation)
  (fresh_id now : jsstring) (body : ConversationRequest)
  (between : list (KnowledgeBase * jsstring * jsstring * ConversationRequest))
  (supabase' : KnowledgeBase) (fresh_id' now' : jsstring)
  (body' : ConversationRequest) (d : jsstring) :
  let saved :=
    snd (chat_orchestrator toLowerCase supabase existing fresh_id now body) in
  let later :=
    snd (chat_orchestrator toLowerCase supabase'
           (turns toLowerCase (Some saved) between) fresh_id' now' body') in
  In d (keys (probabilities_of saved)) ->
  ((forall s, In s (table_rows (symptoms supabase)) ->
              In s (table_rows (symptoms supabase'))) ->
   (forall m, In m (table_rows (symptom_disease_mapping supabase)) ->
              In m (table_rows (symptom_disease_mapping supabase'))) ->
   In d (keys (probabilities_of later))) /\
  (forall e,
     symptoms supabase' = Unavailable e \/
     symptom_disease_mapping supabase' = Unavailable e ->
     probabilities_of later = []).
Proof.
  cbv zeta. intros H.
  rewrite chat_orchestrator_probabilities_of in H.
  set (saved := snd (chat_orchestrator toLowerCase supabase existing fresh_id
                       now body)) in *.
  rewrite chat_orchestrator_probabilities_of.
  split.
  - intros Hs Hm.
    apply calculateDiseaseProbabilities_keys in H
      as (s & m & Hs1 & Hc & Hm1 & E1 & E2).
    apply calculateDiseaseProbabilities_keys. exists s, m.
    split; [now apply Hs|]. split; [|split; [now apply Hm|auto]].
    apply chat_orchestrator_evidence_In. left.
    apply turns_evidence. exact Hc.
  - intros e He. now apply calculateDiseaseProbabilities_unavailable with e.
Qed.

Lemma scored_diseases_persist_witness :
  In (str "dis-leaf-blight")
    (keys (probabilities_of
             (snd (chat_orchestrator ascii_toLowerCase scenario_kb
                     (turns ascii_toLowerCase
                        (Some (snd (chat_orchestrator ascii_toLowerCase
                                      scenario_kb None (str "conv-1")
                                      (str "2026-02-27T01:06:15.000Z")
                                      scenario_turn)))
                        [(unavailable_kb, str "conv-2",
                          str "2026-02-27T01:07:00.000Z",
                          {| sessionId := str "session-1";
                             req_message := str "Yes, they are";
                             req_language := str "en";
                             cropId := None |})])
                     (str "conv-3") (str "2026-02-27T01:08:00.000Z")
                     {| sessionId := str "session-1";
                        req_message := str "Rust coloured spots too";
                        req_language := str "en";
                        cropId := None |})))).
Proof.
  refine (proj1
    (scored_diseases_persist ascii_toLowerCase scenario_kb None (str "conv-1")
       (str "2026-02-27T01:06:15.000Z") scenario_turn
       [(unavailable_kb, str "conv-2", str "2026-02-27T01:07:00.000Z",
         {| sessionId := str "session-1";
            req_message := str "Yes, they are";
            req_language := str "en";
            cropId := None |})]
       scenario_kb (str "conv-3") (str "2026-02-27T01:08:00.000Z")
       {| sessionId := str "session-1";
          req_message := str "Rust coloured spots too";
          req_language := str "en";
          cropId := None |}
       (str "dis-leaf-blight") _) (fun s H => H) (fun m H => H)).
  vm_compute. right. left. reflexivity.
Defined.

(** ** The answers of [generate-advisory] *)

(** X17. The checks of [generate-advisory] come in one order: a request
    without a user is answered [Unauthorized] whatever the conversation; a
    missing conversation is reported once a user is known; the answer
    without a diagnosis needs both, and a row without a score. An advisory
    is composed for the user of the request, for the row that was found
    and in the language of the request, and no other answer changes the
    row. *)
Theorem generate_advisory_outcomes (supabase : KnowledgeBase)
  (user_id : option jsstring) (found : option Conversation)
  (language : jsstring) :
  let done := generate_advisory supabase user_id found language in
  (fst done = Unauthorized <-> user_id = None) /\
  (fst done = ServerError (str "Conversation not found")
   <-> user_id <> None /\ found = None) /\
  (forall msg,
     fst done = NoDiagnosis msg ->
     exists uid conversation,
       user_id = Some uid /\ found = Some conversation /\
       probabilities_of conversation = []) /\
  (forall row reply,
     fst done = Composed row reply ->
     exists uid conversation conversation',
       user_id = Some uid /\ found = Some conversation /\
       snd done = Some conversation' /\
       compose supabase uid conversation language
         = (Composed row reply, conversation') /\
       advisory_user_id row = uid /\
       advisory_conversation_id row = conversation_id conversation /\
       advisory_language row = language /\
       probabilities_of conversation <> []) /\
  match fst done with
  | Composed _ _ => True
  | _ => snd done = found
  end.
Proof.
  cbv zeta. unfold generate_advisory.
  destruct user_id as [uid|].
  2: { cbn [fst snd]. repeat split; try discriminate; try tauto. }
  destruct found as [conversation|].
  2: { cbn [fst snd]. repeat split; try discriminate; auto. }
  destruct (compose supabase uid conversation language)
    as [outcome conversation'] eqn:E.
  cbn [fst snd].
  pose proof E as E0.
  unfold compose in E. fold (probabilities_of conversation) in E.
  destruct (probabilities_of conversation) as [|e p] eqn:Ep.
  - cbn in E. injection E as <- <-.
    repeat split; try discriminate; eauto.
    intros [_ [=]].
  - change (Nat.eqb (List.length (keys (e :: p))) 0) with false in E.
    cbv iota in E.
    destruct (sortedDiseases (e :: p)) as [|[topDiseaseId confidence] rest].
    + injection E as <- <-.
      repeat split; try discriminate. intros [_ [=]].
    + destruct (data (single _ _)) as [disease|].
      * injection E as <- <-.
        split; [split; discriminate|].
        split; [split; [discriminate | intros [_ [=]]]|].
        split; [discriminate|]. split; [|exact I].
        intros row reply H. injection H as <- <-.
        exists uid, conversation. eexists.
        split; [reflexivity|]. split; [reflexivity|]. split; [reflexivity|].
        split; [exact E0|].
        repeat split; try reflexivity. rewrite Ep. discriminate.
      * injection E as <- <-.
        repeat split; try discriminate. intros [_ [=]].
Qed.
